(** * Market Bloom: the average-price aggregator and the distance ranker

    A shallow embedding of the two pure transforms of the buyer dashboard:

    - [src/components/AveragePricePanel.tsx]: [normalizeProductName] and the
      body of [fetchAveragePrices] (grouping, averaging, display names, sort);
    - [src/pages/BuyerDashboard.tsx]: [calculateDistance] and the body of
      [fetchShops] (annotation with the distance, sort).

    JavaScript strings are sequences of UTF-16 code units; a [Map] keeps its
    entries in insertion order; [Array.prototype.sort] is stable.  What the
    engine brings is a parameter: the case mappings outside ASCII and the
    collation of [localeCompare] ([JsString.Engine]), and [Math.sin],
    [Math.cos] and [Math.atan2] ([DistanceRanker.MathEngine]).  The ranking is
    modelled on IEEE doubles. *)

From Stdlib Require Import String Ascii.
From Stdlib Require Import List NArith ZArith Bool Lia Permutation Sorted.
From Stdlib Require Import QArith Reals Lra.
From Stdlib Require Floats.
Import ListNotations.

Close Scope R_scope.
Close Scope Q_scope.
Open Scope nat_scope.

Set Implicit Arguments.

(* ================================================================== *)
(** ** JavaScript strings *)
(* ================================================================== *)

Module JsString.

Local Open Scope N_scope.

(** A UTF-16 code unit (the engine keeps them below 65536; nothing here
    depends on the bound). *)
Definition codeUnit := N.

Definition jsstring := list codeUnit.

(** A literal of the source, given as a Rocq string of ASCII characters. *)
Definition str (s : string) : jsstring :=
  List.map N_of_ascii (list_ascii_of_string s).

Definition unit_eq_dec : forall a b : codeUnit, {a = b} + {a <> b} := N.eq_dec.

Definition jsstring_eq_dec : forall a b : jsstring, {a = b} + {a <> b} :=
  list_eq_dec unit_eq_dec.

Fixpoint eqb (a b : jsstring) : bool :=
  match a, b with
  | [], [] => true
  | x :: a', y :: b' => (x =? y) && eqb a' b'
  | _, _ => false
  end.

Definition isUpperAZ (c : codeUnit) : bool := (65 <=? c) && (c <=? 90).
Definition isLowerAZ (c : codeUnit) : bool := (97 <=? c) && (c <=? 122).
Definition isDigit (c : codeUnit) : bool := (48 <=? c) && (c <=? 57).
Definition isAscii (c : codeUnit) : bool := c <? 128.

(** ECMAScript's WhiteSpace and LineTerminator code points: what [trim]
    removes and what the class [\s] matches. *)
Definition isWhiteSpace (c : codeUnit) : bool :=
  ((9 <=? c) && (c <=? 13))          (* TAB LF VT FF CR *)
  || (c =? 32)                       (* SPACE *)
  || (c =? 160)                      (* U+00A0 *)
  || (c =? 5760)                     (* U+1680 *)
  || ((8192 <=? c) && (c <=? 8202))  (* U+2000 .. U+200A *)
  || (c =? 8232) || (c =? 8233)      (* U+2028 U+2029 *)
  || (c =? 8239)                     (* U+202F *)
  || (c =? 8287)                     (* U+205F *)
  || (c =? 12288)                    (* U+3000 *)
  || (c =? 65279).                   (* U+FEFF *)

(** The order of two strings by their code units. *)
Fixpoint compareUnits (a b : jsstring) : comparison :=
  match a, b with
  | [], [] => Eq
  | [], _ :: _ => Lt
  | _ :: _, [] => Gt
  | x :: a', y :: b' =>
      match x ?= y with
      | Eq => compareUnits a' b'
      | c => c
      end
  end.

(** A letter of either case as the small letter. *)
Definition foldCase (c : codeUnit) : codeUnit :=
  if isUpperAZ c then c + 32 else c.

(** The spec's order of display names: the code units compared with the
    case of letters ignored. *)
Definition ordinalIgnoreCase (a b : jsstring) : comparison :=
  compareUnits (List.map foldCase a) (List.map foldCase b).

(** That order as a compare function.  It is one collation among many, and
    not the one of an engine's locale. *)
Definition ordinalCollation (a b : jsstring) : Z :=
  match ordinalIgnoreCase a b with
  | Lt => (-1)%Z
  | Eq => 0%Z
  | Gt => 1%Z
  end.

(** The weight of a unit in a collation that, like the root collation of
    Unicode, ranks all white space before the digits and the letters. *)
Definition spacesFirstKey (c : codeUnit) : codeUnit :=
  if isWhiteSpace c then 0 else foldCase c.

Definition spacesFirstCollation (a b : jsstring) : Z :=
  match compareUnits (List.map spacesFirstKey a)
                     (List.map spacesFirstKey b) with
  | Lt => (-1)%Z
  | Eq => 0%Z
  | Gt => 1%Z
  end.

(** What the engine brings and the repository does not: the Unicode case
    mappings outside ASCII, and [String.prototype.localeCompare], the
    collation of the engine's default locale.  Lower-casing may look at the
    context of a unit (final sigma, the other half of a surrogate pair);
    upper-casing is only ever applied to a one-unit string here. *)
Record Engine : Type := {
  lowerNonAscii : jsstring -> codeUnit -> jsstring -> jsstring;
  upperNonAscii : codeUnit -> jsstring;
  localeCompare : jsstring -> jsstring -> Z
}.

(** What ECMAScript asks of [localeCompare], a consistent compare function
    that orders all strings: a string it places after another it does not
    place before it, and "not after" carries over a string in between. *)
Definition consistentCollation (U : Engine) : Prop :=
  (forall a b,
     (0 < localeCompare U a b)%Z -> (localeCompare U b a <= 0)%Z)
  /\ (forall a b c,
        (localeCompare U a b <= 0)%Z -> (localeCompare U b c <= 0)%Z ->
        (localeCompare U a c <= 0)%Z).

(** A sample engine: it leaves every non-ASCII unit alone (enough for ASCII
    data) and collates by code unit, the case of letters ignored. *)
Definition asciiEngine : Engine :=
  {| lowerNonAscii := fun _ c _ => [c];
     upperNonAscii := fun c => [c];
     localeCompare := ordinalCollation |}.

(** A sample engine that collates white space first: as in the en-US
    locale, U+00A0 stands with the spaces, before every letter. *)
Definition spacesFirstEngine : Engine :=
  {| lowerNonAscii := fun _ c _ => [c];
     upperNonAscii := fun c => [c];
     localeCompare := spacesFirstCollation |}.

Section Case.

Variable U : Engine.

(** What the unit [c], met after [before] and followed by [after], becomes
    under [toLowerCase]: ASCII capitals move to the small letters, the other
    ASCII units and white space have no case, the rest is the engine's. *)
Definition lowerUnit (before : jsstring) (c : codeUnit) (after : jsstring)
  : jsstring :=
  if isUpperAZ c then [c + 32]
  else if isAscii c || isWhiteSpace c then [c]
  else lowerNonAscii U before c after.

Fixpoint lowerFrom (before s : jsstring) : jsstring :=
  match s with
  | [] => []
  | c :: after => lowerUnit before c after ++ lowerFrom (before ++ [c]) after
  end.

(** [String.prototype.toLowerCase] *)
Definition toLowerCase (s : jsstring) : jsstring := lowerFrom [] s.

Definition upperUnit (c : codeUnit) : jsstring :=
  if isLowerAZ c then [c - 32]
  else if isAscii c || isWhiteSpace c then [c]
  else upperNonAscii U c.

(** [String.prototype.toUpperCase], exact on strings of at most one unit
    (the only ones the source applies it to). *)
Definition toUpperCase (s : jsstring) : jsstring := flat_map upperUnit s.

End Case.

Fixpoint trimStart (s : jsstring) : jsstring :=
  match s with
  | [] => []
  | c :: r => if isWhiteSpace c then trimStart r else s
  end.

Definition trimEnd (s : jsstring) : jsstring := rev (trimStart (rev s)).

(** [String.prototype.trim] *)
Definition trim (s : jsstring) : jsstring := trimEnd (trimStart s).

(** The units the pattern [[^a-z0-9\s]] does not match. *)
Definition kept (c : codeUnit) : bool :=
  isLowerAZ c || isDigit c || isWhiteSpace c.

(** [s.replace(/[^a-z0-9\s]/g, "")] *)
Definition stripOthers (s : jsstring) : jsstring := filter kept s.

(** [s.charAt(i)]: a string of one unit, or the empty string out of range. *)
Definition charAt (s : jsstring) (i : nat) : jsstring :=
  match nth_error s i with
  | Some c => [c]
  | None => []
  end.

(** [s.slice(i)] for a non-negative [i]. *)
Definition slice (s : jsstring) (i : nat) : jsstring := skipn i s.

(** [s.split(sep)] for a separator of one unit: the pieces between the
    separators, never an empty array. *)
Fixpoint split (sep : codeUnit) (s : jsstring) : list jsstring :=
  match s with
  | [] => [[]]
  | c :: r =>
      if c =? sep then [] :: split sep r
      else match split sep r with
           | [] => [[c]]
           | piece :: pieces => (c :: piece) :: pieces
           end
  end.

(** The hyphen-minus of the key template. *)
Definition hyphen : codeUnit := 45.

(** *** Facts *)

Lemma eqb_eq (a b : jsstring) : eqb a b = true <-> a = b.
Proof.
  revert b; induction a as [|x a IH]; intros [|y b]; simpl;
    try (split; [discriminate | discriminate]); try tauto.
  rewrite andb_true_iff, N.eqb_eq, IH.
  split; [intros [-> ->]; reflexivity | intros H; inversion H; auto].
Qed.

Lemma eqb_refl (a : jsstring) : eqb a a = true.
Proof. apply eqb_eq; reflexivity. Qed.

Lemma eqb_neq (a b : jsstring) : eqb a b = false <-> a <> b.
Proof.
  destruct (eqb a b) eqn:E.
  - apply eqb_eq in E. split; [discriminate | congruence].
  - split; [intros _ H; apply eqb_eq in H; congruence | reflexivity].
Qed.

Lemma kept_not_upper (c : codeUnit) : kept c = true -> isUpperAZ c = false.
Proof.
  unfold kept, isUpperAZ, isLowerAZ, isDigit, isWhiteSpace.
  rewrite !orb_true_iff, !andb_true_iff, !N.leb_le, !N.eqb_eq.
  intros H. apply andb_false_iff. rewrite !N.leb_gt. lia.
Qed.

Lemma kept_caseless (c : codeUnit) :
  kept c = true -> isAscii c || isWhiteSpace c = true.
Proof.
  unfold kept. rewrite !orb_true_iff.
  intros [[H | H] | H]; auto; left;
    unfold isLowerAZ, isDigit in H; unfold isAscii;
    rewrite andb_true_iff, !N.leb_le in H; apply N.ltb_lt; lia.
Qed.

Lemma kept_not_hyphen (c : codeUnit) : kept c = true -> c <> hyphen.
Proof.
  intros H ->. vm_compute in H. discriminate.
Qed.

Lemma lowerFrom_kept (U : Engine) (s before : jsstring) :
  Forall (fun c => kept c = true) s -> lowerFrom U before s = s.
Proof.
  intros H; revert before.
  induction H as [|c s Hc _ IH]; intros before; simpl.
  - reflexivity.
  - unfold lowerUnit.
    rewrite (kept_not_upper _ Hc), (kept_caseless _ Hc). simpl.
    now rewrite IH.
Qed.

Lemma toLowerCase_kept (U : Engine) (s : jsstring) :
  Forall (fun c => kept c = true) s -> toLowerCase U s = s.
Proof. apply lowerFrom_kept. Qed.

Lemma stripOthers_kept (s : jsstring) :
  Forall (fun c => kept c = true) (stripOthers s).
Proof.
  apply Forall_forall. intros c H. now apply filter_In in H.
Qed.

Lemma stripOthers_id (s : jsstring) :
  Forall (fun c => kept c = true) s -> stripOthers s = s.
Proof.
  unfold stripOthers.
  induction 1 as [|c s Hc _ IH]; simpl.
  - reflexivity.
  - now rewrite Hc, IH.
Qed.

Lemma trimStart_suffix (s : jsstring) :
  exists w, s = w ++ trimStart s.
Proof.
  induction s as [|c s [w IH]]; simpl.
  - now exists [].
  - destruct (isWhiteSpace c).
    + exists (c :: w). simpl. now f_equal.
    + now exists [].
Qed.

Lemma trimStart_head (s : jsstring) (c : codeUnit) (r : jsstring) :
  trimStart s = c :: r -> isWhiteSpace c = false.
Proof.
  induction s as [|d s IH]; simpl; [discriminate|].
  destruct (isWhiteSpace d) eqn:E; [exact IH|].
  intros H; inversion H; subst; exact E.
Qed.

Lemma trimStart_fixed (s : jsstring) :
  match s with [] => True | c :: _ => isWhiteSpace c = false end ->
  trimStart s = s.
Proof.
  destruct s as [|c r]; simpl; [reflexivity|]. now intros ->.
Qed.

Lemma trimStart_idem (s : jsstring) : trimStart (trimStart s) = trimStart s.
Proof.
  apply trimStart_fixed.
  destruct (trimStart s) as [|c r] eqn:E; [exact I|].
  exact (trimStart_head _ E).
Qed.

Lemma trimEnd_prefix (s : jsstring) : exists w, s = trimEnd s ++ w.
Proof.
  unfold trimEnd. destruct (trimStart_suffix (rev s)) as [w Hw].
  exists (rev w).
  rewrite <- rev_app_distr, <- Hw. now rewrite rev_involutive.
Qed.

Lemma trimEnd_idem (s : jsstring) : trimEnd (trimEnd s) = trimEnd s.
Proof.
  unfold trimEnd. now rewrite rev_involutive, trimStart_idem.
Qed.

Lemma trim_idem (s : jsstring) : trim (trim s) = trim s.
Proof.
  unfold trim.
  assert (H : trimStart (trimEnd (trimStart s)) = trimEnd (trimStart s)).
  { apply trimStart_fixed.
    destruct (trimEnd_prefix (trimStart s)) as [w Hw].
    destruct (trimEnd (trimStart s)) as [|c r]; [exact I|].
    simpl in Hw. exact (trimStart_head _ Hw). }
  rewrite H. apply trimEnd_idem.
Qed.

Lemma trimStart_Forall (P : codeUnit -> Prop) (s : jsstring) :
  Forall P s -> Forall P (trimStart s).
Proof.
  intros H. destruct (trimStart_suffix s) as [w Hw].
  rewrite Hw in H. now apply Forall_app in H.
Qed.

Lemma trim_Forall (P : codeUnit -> Prop) (s : jsstring) :
  Forall P s -> Forall P (trim s).
Proof.
  intros H. unfold trim, trimEnd.
  apply Forall_rev, trimStart_Forall, Forall_rev, trimStart_Forall, H.
Qed.

End JsString.

(* ================================================================== *)
(** ** Arrays: [Array.prototype.sort] *)
(* ================================================================== *)

Module JsArray.

Section Sort.

Variable A : Type.

(** [positive a b] tells whether the compare function of the call returns a
    number above zero on [(a, b)], that is, whether [a] has to come after
    [b]. *)
Variable positive : A -> A -> bool.

(** [x] comes from the left of [l] in the array: it moves right past the
    elements it has to come after and stops at the first other one. *)
Fixpoint insert (x : A) (l : list A) : list A :=
  match l with
  | [] => [x]
  | y :: r => if positive x y then y :: insert x r else x :: l
  end.

(** The language asks [sort] to be stable; with a consistent compare
    function that fixes the result, whatever algorithm the engine runs.
    Insertion from the right end is one such algorithm.  With any other
    compare function the order is the engine's own and the result is still
    a rearrangement of the array. *)
Fixpoint sort (l : list A) : list A :=
  match l with
  | [] => []
  | x :: r => insert x (sort r)
  end.

(** [x] may stand before [y]. *)
Definition le (x y : A) : Prop := positive x y = false.

Lemma insert_perm (x : A) (l : list A) : Permutation (x :: l) (insert x l).
Proof.
  induction l as [|y r IH]; simpl.
  - apply Permutation_refl.
  - destruct (positive x y).
    + eapply perm_trans; [apply perm_swap | apply perm_skip, IH].
    + apply Permutation_refl.
Qed.

Lemma sort_perm (l : list A) : Permutation l (sort l).
Proof.
  induction l as [|x r IH]; simpl.
  - apply perm_nil.
  - eapply perm_trans; [apply perm_skip, IH | apply insert_perm].
Qed.

Lemma sort_length (l : list A) : length (sort l) = length l.
Proof. symmetry. apply Permutation_length, sort_perm. Qed.

Lemma sort_In (l : list A) (x : A) : In x (sort l) <-> In x l.
Proof.
  split; apply Permutation_in;
    [apply Permutation_sym |]; apply sort_perm.
Qed.

(** Elements of a class whose members the compare function never orders
    strictly keep their places relative to each other. *)
Section Stable.

Variable P : A -> bool.
Hypothesis P_unordered :
  forall x y, P x = true -> P y = true -> positive x y = false.

Lemma insert_filter (x : A) (l : list A) :
  filter P (insert x l) = filter P (x :: l).
Proof.
  induction l as [|y r IH]; [reflexivity|].
  simpl insert. destruct (positive x y) eqn:E; [|reflexivity].
  simpl in *. rewrite IH.
  destruct (P x) eqn:Px, (P y) eqn:Py; try reflexivity.
  rewrite (P_unordered Px Py) in E. discriminate.
Qed.

Lemma sort_filter (l : list A) : filter P (sort l) = filter P l.
Proof.
  induction l as [|x r IH]; [reflexivity|].
  simpl sort. rewrite insert_filter. simpl. now rewrite IH.
Qed.

End Stable.

(** With a compare function that is a total preorder the result is in
    order. *)
Section Ordered.

Hypothesis positive_asym :
  forall x y, positive x y = true -> positive y x = false.
Hypothesis notpositive_trans :
  forall x y z, positive x y = false -> positive y z = false ->
                positive x z = false.

Lemma insert_sorted (x : A) (l : list A) :
  StronglySorted le l -> StronglySorted le (insert x l).
Proof.
  induction 1 as [|y r Hr IH Hy]; simpl.
  - constructor; [constructor | constructor].
  - destruct (positive x y) eqn:E.
    + constructor; [exact IH|].
      apply Forall_forall. intros z Hz.
      apply (Permutation_in _ (Permutation_sym (insert_perm x r))) in Hz.
      destruct Hz as [<- | Hz].
      * apply positive_asym, E.
      * rewrite Forall_forall in Hy. now apply Hy.
    + constructor; [now constructor|].
      constructor; [exact E|].
      apply Forall_forall. intros z Hz.
      rewrite Forall_forall in Hy.
      exact (notpositive_trans E (Hy z Hz)).
Qed.

Lemma sort_sorted (l : list A) : StronglySorted le (sort l).
Proof.
  induction l as [|x r IH]; simpl.
  - constructor.
  - now apply insert_sorted.
Qed.

End Ordered.

End Sort.

Lemma StronglySorted_weaken (A : Type) (R R' : A -> A -> Prop) (l : list A) :
  (forall x y, R x y -> R' x y) -> StronglySorted R l -> StronglySorted R' l.
Proof.
  intros H. induction 1 as [|x l _ IH Hx]; constructor; [exact IH|].
  eapply Forall_impl; [|exact Hx]. intros y. apply H.
Qed.

End JsArray.

(* ================================================================== *)
(** ** The average-price aggregator ([AveragePricePanel.tsx]) *)
(* ================================================================== *)

Module PriceAggregator.

Import JsString.

(** The arithmetic of the engine's numbers.  Nothing below needs a law of
    it, so it stays a parameter: the results hold for IEEE doubles as they
    do for exact decimals. *)
Record Arithmetic : Type := {
  number : Type;
  add : number -> number -> number;     (* [a + b] *)
  div : number -> number -> number;     (* [a / b] *)
  ofCount : nat -> number;              (* an integer count as a number *)
  reparse : number -> number            (* [parseFloat(x.toString())] *)
}.

(** Exact rationals: the arithmetic of the store's [DECIMAL(10, 2)] prices. *)
Definition decimals : Arithmetic :=
  {| number := Q;
     add := Qplus;
     div := Qdiv;
     ofCount := fun n => inject_Z (Z.of_nat n);
     reparse := fun x => x |}.

Section Aggregator.

Variable U : Engine.
Variable A : Arithmetic.

(** A row of [products] as selected: [name, category, price]. *)
Record Product : Type := {
  product_name : jsstring;
  product_category : jsstring;
  product_price : number A
}.

(** [interface AveragePrice] *)
Record AveragePrice : Type := {
  name : jsstring;
  category : jsstring;
  avgPrice : number A;
  shopCount : nat
}.

(** The values of [priceMap]. *)
Record Entry : Type := {
  total : number A;
  count : nat;
  entry_category : jsstring
}.

(** A [Map] with string keys: the entries in insertion order. *)
Definition PriceMap : Type := list (jsstring * Entry).

Fixpoint get (key : jsstring) (m : PriceMap) : option Entry :=
  match m with
  | [] => None
  | (k, v) :: r => if eqb k key then Some v else get key r
  end.

Definition has (key : jsstring) (m : PriceMap) : bool :=
  match get key m with Some _ => true | None => false end.

(** [Map.prototype.set]: a present key keeps its place and takes the new
    value, an absent one is added at the end.  Assigning to the fields of
    the object [get] returned is a [set] of the present key. *)
Fixpoint set (key : jsstring) (v : Entry) (m : PriceMap) : PriceMap :=
  match m with
  | [] => [(key, v)]
  | (k, w) :: r => if eqb k key then (k, v) :: r else (k, w) :: set key v r
  end.

Definition normalizeProductName (name : jsstring) : jsstring :=
  stripOthers (trim (toLowerCase U name)).

(** The template [`${normalizedName}-${product.category}`]. *)
Definition keyOf (normalizedName category : jsstring) : jsstring :=
  normalizedName ++ hyphen :: category.

Definition productKey (product : Product) : jsstring :=
  keyOf (normalizeProductName (product_name product))
        (product_category product).

(** The body of [products.forEach].  The source takes [get] to find the key
    that [has] has just seen ([priceMap.get(key)!]); it always does.  Counts
    are whole numbers and kept as such. *)
Definition addProduct (priceMap : PriceMap) (product : Product) : PriceMap :=
  let key := productKey product in
  if has key priceMap then
    match get key priceMap with
    | Some existing =>
        set key
          {| total := add A (total existing)
                        (reparse A (product_price product));
             count := count existing + 1;
             entry_category := entry_category existing |}
          priceMap
    | None => priceMap
    end
  else
    set key
      {| total := reparse A (product_price product);
         count := 1;
         entry_category := product_category product |}
      priceMap.

Definition buildPriceMap (products : list Product) : PriceMap :=
  fold_left addProduct products [].

(** The callback of [Array.from(priceMap.entries()).map]. *)
Definition toAverage (e : jsstring * Entry) : AveragePrice :=
  let (key, value) := e in
  let name := hd [] (split hyphen key) in
  {| name := toUpperCase U (charAt name 0) ++ slice name 1;
     category := entry_category value;
     avgPrice := div A (total value) (ofCount A (count value));
     shopCount := count value |}.

(** [(a, b) => a.name.localeCompare(b.name)] returns a positive number. *)
Definition nameAfter (a b : AveragePrice) : bool :=
  (0 <? localeCompare U (name a) (name b))%Z.

(** The array handed to [setAveragePrices] when the rows are [products]. *)
Definition fetchAveragePrices (products : list Product) : list AveragePrice :=
  JsArray.sort nameAfter (List.map toAverage (buildPriceMap products)).

(** *** The vocabulary of the statements *)

(** The pair a group stands for. *)
Definition groupPair (p : Product) : jsstring * jsstring :=
  (normalizeProductName (product_name p), product_category p).

Definition sameGroup (p q : Product) : bool :=
  eqb (normalizeProductName (product_name p))
      (normalizeProductName (product_name q))
  && eqb (product_category p) (product_category q).

(** The products of the list that fall into the group of [p], in the order
    of the list. *)
Definition groupOf (p : Product) (products : list Product) : list Product :=
  filter (sameGroup p) products.

(** The sum of the prices of a group, first contributor first. *)
Definition sumPrices (first : Product) (rest : list Product) : number A :=
  fold_left (fun t q => add A t (reparse A (product_price q))) rest
            (reparse A (product_price first)).

(** A normalized name with its first unit as a capital. *)
Definition displayName (normalizedName : jsstring) : jsstring :=
  match normalizedName with
  | [] => []
  | c :: r => (if isLowerAZ c then (c - 32)%N else c) :: r
  end.

Definition sumCounts (averages : list AveragePrice) : nat :=
  fold_right (fun e n => shopCount e + n) 0 averages.

(** The products whose key is [k]. *)
Definition keyed (k : jsstring) (p : Product) : bool :=
  eqb (productKey p) k.

(** What the map holds for a key, from the products that carry it. *)
Definition entryOf (group : list Product) : option Entry :=
  match group with
  | [] => None
  | p :: r =>
      Some {| total := sumPrices p r;
              count := S (List.length r);
              entry_category := product_category p |}
  end.

(** What is emitted for the group whose first contributor is [p] and whose
    later ones are [r]. *)
Definition averageOf (p : Product) (r : list Product) : AveragePrice :=
  {| name := displayName (normalizeProductName (product_name p));
     category := product_category p;
     avgPrice := div A (sumPrices p r) (ofCount A (S (List.length r)));
     shopCount := S (List.length r) |}.

(** The sum of the counts of a map. *)
Definition sumEntries (m : PriceMap) : nat :=
  fold_right (fun kv n => count (snd kv) + n) 0 m.

(** The key of a pair. *)
Definition keyOfPair (pr : jsstring * jsstring) : jsstring :=
  keyOf (fst pr) (snd pr).

End Aggregator.

Definition groupPair_eq_dec :
  forall a b : jsstring * jsstring, {a = b} + {a <> b}.
Proof.
  decide equality; apply jsstring_eq_dec.
Defined.

(** *** Sample rows *)

Definition fruit : jsstring := str "fruit".
Definition flower : jsstring := str "flower".

Definition row (n : string) (c : jsstring) (price : Q) : Product decimals :=
  @Build_Product decimals (str n) c price.

(** The first scenario of the spec and the entry it reports for mangoes. *)
Definition scenario1 : list (Product decimals) :=
  [row "Mango" fruit 50; row "mango " fruit 60; row "Rose" flower 30].

Definition mangoes : AveragePrice decimals :=
  @Build_AveragePrice decimals (str "Mango") fruit
    (Qdiv (Qplus 50 60) (inject_Z 2)) 2.

(** A name without a letter, a digit or white space, after one with some. *)
Definition bangs : Product decimals := row "!!!" fruit 4.

Definition scenario2bangs : list (Product decimals) :=
  [row "Apple!!" fruit 100; bangs].

(** One name under both categories. *)
Definition roseFruit : Product decimals := row "Rose" fruit 30.
Definition roseFlower : Product decimals := row "rose" flower 20.

Definition roses : list (Product decimals) :=
  [roseFlower; roseFruit; row "ROSE!" flower 40].

(** One name in two spellings. *)
Definition mangoSecond : Product decimals := row "MANGO " fruit 60.

Definition twoMangoes : list (Product decimals) :=
  [row "Mango" fruit 50; mangoSecond].

(** Two names that differ by a no-break space, U+00A0: ["ab"] and
    ["a b"] with U+00A0 for the space. *)
Definition spacedName : jsstring := str "a" ++ [160%N] ++ str "b".

Definition spacedRows : list (Product decimals) :=
  [row "ab" fruit 40; @Build_Product decimals spacedName fruit 50%Q].

(** The order among names the spec describes. *)
Definition ordinalOrder (A : Arithmetic) (a b : AveragePrice A) : Prop :=
  ordinalIgnoreCase (name a) (name b) <> Gt.

(** The order among names of the engine's collation. *)
Definition collationOrder (U : Engine) (A : Arithmetic)
    (a b : AveragePrice A) : Prop :=
  (localeCompare U (name a) (name b) <= 0)%Z.

(** *** Strings of the aggregator *)

Section StringFacts.

Variable U : Engine.

Lemma normalize_kept (x : jsstring) :
  Forall (fun c => kept c = true) (normalizeProductName U x).
Proof. apply stripOthers_kept. Qed.

Lemma normalize_no_hyphen (x : jsstring) :
  ~ In hyphen (normalizeProductName U x).
Proof.
  intros H.
  assert (K := normalize_kept x). rewrite Forall_forall in K.
  exact (kept_not_hyphen (K _ H) eq_refl).
Qed.

Lemma normalize_of_kept (y : jsstring) :
  Forall (fun c => kept c = true) y -> normalizeProductName U y = trim y.
Proof.
  intros K. unfold normalizeProductName.
  rewrite (toLowerCase_kept U K).
  apply stripOthers_id, trim_Forall, K.
Qed.

Lemma split_head (sep : codeUnit) (n c : jsstring) :
  ~ In sep n -> split sep (n ++ sep :: c) = n :: split sep c.
Proof.
  induction n as [|x n IH]; simpl; intros H.
  - now rewrite N.eqb_refl.
  - destruct (N.eqb_spec x sep) as [E | _]; [tauto|].
    rewrite IH by tauto. reflexivity.
Qed.

Lemma keyOf_name (n c : jsstring) :
  ~ In hyphen n -> hd [] (split hyphen (keyOf n c)) = n.
Proof.
  intros H. unfold keyOf. now rewrite split_head.
Qed.

Lemma keyOf_inj (n1 c1 n2 c2 : jsstring) :
  ~ In hyphen n1 -> ~ In hyphen n2 ->
  keyOf n1 c1 = keyOf n2 c2 -> n1 = n2 /\ c1 = c2.
Proof.
  unfold keyOf. revert n2.
  induction n1 as [|x n1 IH]; intros [|y n2]; simpl; intros H1 H2 E.
  - inversion E. auto.
  - inversion E. subst. exfalso. apply H2. now left.
  - inversion E. subst. exfalso. apply H1. now left.
  - inversion E. subst.
    destruct (IH n2) as [-> ->]; auto.
Qed.

Lemma displayName_code (n : jsstring) :
  Forall (fun c => kept c = true) n ->
  toUpperCase U (charAt n 0) ++ slice n 1 = displayName n.
Proof.
  intros K. destruct K as [|c r Hc _]; [reflexivity|].
  unfold charAt, slice, toUpperCase, upperUnit. simpl.
  destruct (isLowerAZ c); [reflexivity|].
  now rewrite (kept_caseless _ Hc).
Qed.

End StringFacts.

(** *** The map *)

Section MapFacts.

Variable U : Engine.
Variable A : Arithmetic.

Implicit Types (m : PriceMap A) (k key : jsstring) (v : Entry A).
Implicit Types (p q : Product A) (products : list (Product A)).

Lemma get_set_same key v m : get key (set key v m) = Some v.
Proof.
  induction m as [|[k w] r IH]; simpl.
  - now rewrite eqb_refl.
  - destruct (eqb k key) eqn:E; simpl; now rewrite E.
Qed.

Lemma get_set_other key k v m : k <> key -> get k (set key v m) = get k m.
Proof.
  intros D. induction m as [|[k' w] r IH]; simpl.
  - destruct (eqb key k) eqn:E; [|reflexivity].
    apply eqb_eq in E. congruence.
  - destruct (eqb k' key) eqn:E; simpl.
    + apply eqb_eq in E. subst k'.
      destruct (eqb key k) eqn:E2; [|reflexivity].
      apply eqb_eq in E2. congruence.
    + now destruct (eqb k' k).
Qed.

Lemma get_In k v m : get k m = Some v -> In (k, v) m.
Proof.
  induction m as [|[k' w] r IH]; simpl; [discriminate|].
  destruct (eqb k' k) eqn:E.
  - apply eqb_eq in E. intros H. inversion H. subst. now left.
  - intros H. right. now apply IH.
Qed.

Lemma get_None k m : get k m = None <-> ~ In k (List.map fst m).
Proof.
  induction m as [|[k' w] r IH]; simpl; [tauto|].
  destruct (eqb k' k) eqn:E.
  - apply eqb_eq in E. split; [discriminate | tauto].
  - apply eqb_neq in E. tauto.
Qed.

Lemma In_get k v m : NoDup (List.map fst m) -> In (k, v) m -> get k m = Some v.
Proof.
  induction m as [|[k' w] r IH]; simpl; [tauto|].
  intros D H. inversion D as [|? ? Hk Dr]. subst.
  destruct H as [H | H].
  - inversion H. subst. now rewrite eqb_refl.
  - destruct (eqb k' k) eqn:E; [|now apply IH].
    apply eqb_eq in E. subst k'.
    exfalso. apply Hk. apply in_map_iff. now exists (k, v).
Qed.

Lemma set_keys key v m :
  List.map fst (set key v m) =
  if has key m then List.map fst m else List.map fst m ++ [key].
Proof.
  unfold has. induction m as [|[k w] r IH]; simpl; [reflexivity|].
  destruct (eqb k key) eqn:E; simpl; [reflexivity|].
  rewrite IH. now destruct (get key r).
Qed.

Lemma set_NoDup key v m :
  NoDup (List.map fst m) -> NoDup (List.map fst (set key v m)).
Proof.
  intros D. rewrite set_keys. unfold has.
  destruct (get key m) eqn:G; [exact D|].
  apply get_None in G.
  apply NoDup_rev in D. apply (NoDup_cons key) in D.
  - apply NoDup_rev in D. simpl in D. now rewrite rev_involutive in D.
  - now rewrite <- in_rev.
Qed.

Lemma addProduct_NoDup m p :
  NoDup (List.map fst m) -> NoDup (List.map fst (addProduct U m p)).
Proof.
  intros D. unfold addProduct, has.
  destruct (get (productKey U p) m); now apply set_NoDup.
Qed.

Lemma build_snoc products p :
  buildPriceMap U (products ++ [p]) =
  addProduct U (buildPriceMap U products) p.
Proof. unfold buildPriceMap. now rewrite fold_left_app. Qed.

Lemma build_NoDup products : NoDup (List.map fst (buildPriceMap U products)).
Proof.
  induction products as [|p products IH] using rev_ind.
  - constructor.
  - rewrite build_snoc. now apply addProduct_NoDup.
Qed.

Lemma entryOf_snoc (group : list (Product A)) p :
  entryOf (group ++ [p]) =
  match entryOf group with
  | Some existing =>
      Some {| total := add A (total existing) (reparse A (product_price p));
              count := count existing + 1;
              entry_category := entry_category existing |}
  | None =>
      Some {| total := reparse A (product_price p);
              count := 1;
              entry_category := product_category p |}
  end.
Proof.
  destruct group as [|p0 r]; simpl; [reflexivity|].
  unfold sumPrices. rewrite fold_left_app, length_app. reflexivity.
Qed.

Lemma get_build products k :
  get k (buildPriceMap U products) = entryOf (filter (keyed U k) products).
Proof.
  induction products as [|p products IH] using rev_ind; [reflexivity|].
  rewrite build_snoc, filter_app. simpl. unfold keyed at 2.
  destruct (eqb (productKey U p) k) eqn:E.
  - apply eqb_eq in E. subst k.
    rewrite entryOf_snoc, <- IH.
    unfold addProduct, has.
    destruct (get (productKey U p) (buildPriceMap U products));
      apply get_set_same.
  - rewrite app_nil_r, <- IH. apply eqb_neq in E.
    unfold addProduct, has.
    destruct (get (productKey U p) (buildPriceMap U products));
      apply get_set_other; congruence.
Qed.

Lemma build_entry products k v :
  In (k, v) (buildPriceMap U products) <->
  entryOf (filter (keyed U k) products) = Some v.
Proof.
  rewrite <- get_build. split.
  - apply In_get, build_NoDup.
  - apply get_In.
Qed.

Lemma build_keys products k :
  In k (List.map fst (buildPriceMap U products)) <->
  In k (List.map (@productKey U A) products).
Proof.
  split.
  - intros H. apply in_map_iff in H. destruct H as [[k' v] [E H]].
    simpl in E. subst k'. apply build_entry in H.
    destruct (filter (keyed U k) products) as [|p r] eqn:F; [discriminate|].
    assert (I : In p (filter (keyed U k) products)) by (rewrite F; now left).
    apply filter_In in I. destruct I as [I K]. apply eqb_eq in K.
    apply in_map_iff. now exists p.
  - intros H. apply in_map_iff in H. destruct H as [p [E H]].
    destruct (get k (buildPriceMap U products)) as [v|] eqn:G.
    + apply get_In in G. apply in_map_iff. now exists (k, v).
    + rewrite get_build in G.
      assert (I : In p (filter (keyed U k) products)).
      { apply filter_In. split; [exact H|]. now apply eqb_eq. }
      destruct (filter (keyed U k) products); [destruct I | discriminate].
Qed.

Lemma keyed_sameGroup p q : keyed U (productKey U p) q = sameGroup U p q.
Proof.
  unfold keyed, sameGroup, productKey.
  destruct (eqb (keyOf _ _) (keyOf _ _)) eqn:E.
  - apply eqb_eq in E.
    apply keyOf_inj in E; try apply normalize_no_hyphen.
    destruct E as [-> ->]. now rewrite !eqb_refl.
  - symmetry. apply andb_false_iff.
    destruct (eqb (normalizeProductName U (product_name p)) _) eqn:E1;
      [right | now left].
    destruct (eqb (product_category p) _) eqn:E2; [|reflexivity].
    apply eqb_eq in E1, E2. rewrite E1, E2, eqb_refl in E. discriminate.
Qed.

Lemma keyed_groupOf p products :
  filter (keyed U (productKey U p)) products = groupOf U p products.
Proof. apply filter_ext. intros q. apply keyed_sameGroup. Qed.

End MapFacts.

(** *** The order of names *)

Lemma compareUnits_antisym (a b : jsstring) :
  compareUnits b a = CompOpp (compareUnits a b).
Proof.
  revert b. induction a as [|x a IH]; intros [|y b]; simpl; try reflexivity.
  rewrite (N.compare_antisym x y).
  destruct (x ?= y)%N; simpl; auto.
Qed.

Lemma compareUnits_trans (a b c : jsstring) :
  compareUnits a b <> Gt -> compareUnits b c <> Gt -> compareUnits a c <> Gt.
Proof.
  revert b c.
  induction a as [|x a IH]; intros [|y b] [|z c]; simpl; try congruence.
  destruct (N.compare_spec x y) as [-> | Hxy | Hxy]; try congruence.
  - destruct (y ?= z)%N; try congruence. apply IH.
  - destruct (N.compare_spec y z) as [<- | Hyz | Hyz]; try congruence.
    + intros _ _. apply N.compare_lt_iff in Hxy. rewrite Hxy. congruence.
    + intros _ _.
      assert (H : (x ?= z)%N = Lt) by (apply N.compare_lt_iff; lia).
      rewrite H. congruence.
Qed.

Lemma keyed_consistent (key : codeUnit -> codeUnit)
    (compare : jsstring -> jsstring -> Z) :
  (forall a b,
     compare a b
     = match compareUnits (List.map key a) (List.map key b) with
       | Lt => (-1)%Z
       | Eq => 0%Z
       | Gt => 1%Z
       end) ->
  (forall a b, (0 < compare a b)%Z -> (compare b a <= 0)%Z)
  /\ (forall a b c,
        (compare a b <= 0)%Z -> (compare b c <= 0)%Z -> (compare a c <= 0)%Z).
Proof.
  intros E. split.
  - intros a b. rewrite !E, (compareUnits_antisym (List.map key a)).
    destruct (compareUnits (List.map key a) (List.map key b)); simpl; lia.
  - intros a b c. rewrite !E. intros H1 H2.
    assert (T := @compareUnits_trans (List.map key a) (List.map key b)
                   (List.map key c)).
    destruct (compareUnits (List.map key a) (List.map key b));
      destruct (compareUnits (List.map key b) (List.map key c));
      destruct (compareUnits (List.map key a) (List.map key c));
      try lia; exfalso; apply T; congruence.
Qed.

Lemma asciiEngine_consistent : consistentCollation asciiEngine.
Proof. apply (keyed_consistent foldCase). reflexivity. Qed.

Lemma spacesFirstEngine_consistent : consistentCollation spacesFirstEngine.
Proof. apply (keyed_consistent spacesFirstKey). reflexivity. Qed.

Lemma nameAfter_le (U : Engine) (A : Arithmetic) (a b : AveragePrice A) :
  nameAfter U a b = false <-> collationOrder U a b.
Proof. unfold nameAfter, collationOrder. apply Z.ltb_ge. Qed.

Lemma spacedRows_output :
  fetchAveragePrices spacesFirstEngine spacedRows
  = [@Build_AveragePrice decimals (str "A" ++ [160%N] ++ str "b") fruit
       (Qdiv 50 (inject_Z 1)) 1;
     @Build_AveragePrice decimals (str "Ab") fruit
       (Qdiv 40 (inject_Z 1)) 1].
Proof. reflexivity. Qed.

(** *** The output *)

Section Output.

Variable U : Engine.
Variable A : Arithmetic.

Implicit Types (p q : Product A) (products : list (Product A)).
Implicit Types (e : AveragePrice A) (m : PriceMap A).

Lemma toAverage_group p (r : list (Product A)) :
  toAverage U (productKey U p,
               {| total := sumPrices p r;
                  count := S (List.length r);
                  entry_category := product_category p |})
  = averageOf U p r.
Proof.
  unfold toAverage, productKey, averageOf. simpl.
  rewrite keyOf_name by apply normalize_no_hyphen.
  rewrite displayName_code by apply normalize_kept.
  reflexivity.
Qed.

Lemma out_iff products e :
  In e (fetchAveragePrices U products) <->
  exists p r, groupOf U p products = p :: r /\ e = averageOf U p r.
Proof.
  unfold fetchAveragePrices. rewrite JsArray.sort_In, in_map_iff. split.
  - intros [[k v] [E H]]. apply build_entry in H.
    destruct (filter (keyed U k) products) as [|p r] eqn:F; [discriminate|].
    simpl in H. inversion H as [Hv]. clear H.
    assert (I : In p (filter (keyed U k) products)) by (rewrite F; now left).
    apply filter_In in I. destruct I as [_ K]. apply eqb_eq in K. subst k.
    rewrite keyed_groupOf in F.
    exists p, r. split; [exact F|].
    rewrite <- E, <- Hv. apply toAverage_group.
  - intros (p & r & G & ->).
    eexists (productKey U p, _). split; [apply toAverage_group|].
    apply build_entry. rewrite keyed_groupOf, G. reflexivity.
Qed.

Lemma sameGroup_pair p q :
  sameGroup U p q = true <-> groupPair U p = groupPair U q.
Proof.
  unfold sameGroup, groupPair. rewrite andb_true_iff, !eqb_eq.
  split; [intros [-> ->]; reflexivity | intros H; now inversion H].
Qed.

Lemma sameGroup_refl p : sameGroup U p p = true.
Proof. now apply sameGroup_pair. Qed.

Lemma sameGroup_ext p p0 q :
  groupPair U p0 = groupPair U p -> sameGroup U p0 q = sameGroup U p q.
Proof.
  unfold sameGroup, groupPair. intros H. inversion H as [[H1 H2]].
  now rewrite H1, H2.
Qed.

Lemma group_first products p :
  In p products ->
  exists p0 r, groupOf U p products = p0 :: r
               /\ groupPair U p0 = groupPair U p
               /\ groupOf U p0 products = p0 :: r.
Proof.
  intros H.
  assert (I : In p (groupOf U p products)).
  { apply filter_In. split; [exact H | apply sameGroup_refl]. }
  destruct (groupOf U p products) as [|p0 r] eqn:G; [destruct I|].
  assert (I0 : In p0 (groupOf U p products)) by (rewrite G; now left).
  apply filter_In in I0. destruct I0 as [_ S0].
  apply sameGroup_pair in S0. symmetry in S0.
  exists p0, r. repeat split; auto.
  rewrite <- G. apply filter_ext. intros q. now apply sameGroup_ext.
Qed.

Lemma entry_for_product products p :
  In p products ->
  exists p0 r, groupOf U p products = p0 :: r
               /\ groupPair U p0 = groupPair U p
               /\ In (averageOf U p0 r) (fetchAveragePrices U products).
Proof.
  intros H. destruct (group_first _ _ H) as (p0 & r & G & E & G0).
  exists p0, r. repeat split; auto.
  apply out_iff. now exists p0, r.
Qed.

Lemma set_sum key (v : Entry A) m :
  sumEntries (set key v m) + match get key m with
                             | Some old => count old
                             | None => 0
                             end
  = sumEntries m + count v.
Proof.
  induction m as [|[k w] r IH]; simpl; [lia|].
  destruct (eqb k key); simpl; lia.
Qed.

Lemma build_sum products :
  sumEntries (buildPriceMap U products) = List.length products.
Proof.
  induction products as [|p products IH] using rev_ind; [reflexivity|].
  rewrite build_snoc, length_app. simpl.
  unfold addProduct, has.
  destruct (get (productKey U p) (buildPriceMap U products)) as [old|] eqn:G.
  - match goal with |- sumEntries (set ?k ?v ?m) = _ =>
      pose proof (set_sum k v m) as S end.
    rewrite G in S. simpl in S. lia.
  - match goal with |- sumEntries (set ?k ?v ?m) = _ =>
      pose proof (set_sum k v m) as S end.
    rewrite G in S. simpl in S. lia.
Qed.

Lemma sumCounts_map m :
  sumCounts (List.map (@toAverage U A) m) = sumEntries m.
Proof.
  induction m as [|[k v] r IH]; simpl; [reflexivity|]. now rewrite IH.
Qed.

Lemma sumCounts_perm (l l' : list (AveragePrice A)) :
  Permutation l l' -> sumCounts l = sumCounts l'.
Proof.
  induction 1; simpl; lia.
Qed.

End Output.

(** *** Distinct pairs and distinct keys *)

Section Pairs.

Variable U : Engine.
Variable A : Arithmetic.

Lemma build_length (products : list (Product A)) :
  List.length (buildPriceMap U products)
  = List.length (nodup groupPair_eq_dec
                   (List.map (@groupPair U A) products)).
Proof.
  set (pairs := nodup groupPair_eq_dec (List.map (@groupPair U A) products)).
  rewrite <- (length_map fst (buildPriceMap U products)).
  rewrite <- (length_map keyOfPair pairs).
  apply Permutation_length, NoDup_Permutation.
  - apply build_NoDup.
  - apply NoDup_map_NoDup_ForallPairs; [|apply NoDup_nodup].
    intros a b Ha Hb E. unfold pairs in Ha, Hb.
    rewrite nodup_In, in_map_iff in Ha, Hb.
    destruct Ha as [pa [<- _]], Hb as [pb [<- _]].
    unfold keyOfPair, groupPair in *. simpl in E.
    apply keyOf_inj in E; try apply normalize_no_hyphen.
    destruct E as [-> ->]. reflexivity.
  - intros k. rewrite build_keys. unfold pairs.
    rewrite !in_map_iff. split.
    + intros [p [E H]]. exists (groupPair U p). split; [exact E|].
      apply nodup_In, in_map_iff. now exists p.
    + intros [pr [E H]]. apply nodup_In, in_map_iff in H.
      destruct H as [p [<- H]]. now exists p.
Qed.

End Pairs.

Lemma decimals_div_one (x : Q) : Qdiv x (inject_Z (Z.of_nat 1)) = x.
Proof.
  destruct x as [a b]. unfold Qdiv, Qmult, Qinv. simpl.
  now rewrite Z.mul_1_r, Pos.mul_1_r.
Qed.

Lemma normalize_sample (U : Engine) :
  normalizeProductName U (str "! a !") = str " a "
  /\ normalizeProductName U (str " a ") = str "a".
Proof. split; reflexivity. Qed.

(** *** The properties of the aggregator *)

(** C1: the output has exactly one entry per distinct pair of normalized
    name and category: the two numbers agree, and two products with the same
    normalized name and different categories are reported by two different
    entries, each counting the products of its own pair only. *)
Theorem one_group_per_pair (U : Engine) (A : Arithmetic)
    (products : list (Product A)) :
  List.length (fetchAveragePrices U products)
  = List.length (nodup groupPair_eq_dec (List.map (@groupPair U A) products))
  /\ forall p q,
       In p products -> In q products ->
       normalizeProductName U (product_name p)
       = normalizeProductName U (product_name q) ->
       product_category p <> product_category q ->
       exists e1 e2,
         In e1 (fetchAveragePrices U products)
         /\ In e2 (fetchAveragePrices U products)
         /\ e1 <> e2
         /\ name e1 = name e2
         /\ category e1 = product_category p
         /\ category e2 = product_category q
         /\ shopCount e1 = List.length (groupOf U p products)
         /\ shopCount e2 = List.length (groupOf U q products).
Proof.
  split.
  - unfold fetchAveragePrices.
    rewrite JsArray.sort_length, length_map. apply build_length.
  - intros p q Hp Hq En Dc.
    destruct (entry_for_product U _ _ Hp) as (p0 & r0 & G0 & E0 & I0).
    destruct (entry_for_product U _ _ Hq) as (q0 & s0 & G1 & E1 & I1).
    unfold groupPair in E0, E1.
    inversion E0 as [[N0 C0]]. inversion E1 as [[N1 C1]].
    exists (averageOf U p0 r0), (averageOf U q0 s0).
    repeat split; auto; simpl.
    + intros H. apply (f_equal (@category A)) in H. simpl in H. congruence.
    + congruence.
    + now rewrite G0.
    + now rewrite G1.
Qed.

(** C3, as the code has it: the output is in ascending order of display
    name under the collation of the engine, [localeCompare]: no entry is
    followed, at any distance, by one that the collation places before
    it. *)
Theorem averages_sorted_by_collation (U : Engine) (A : Arithmetic)
    (products : list (Product A)) :
  consistentCollation U ->
  StronglySorted (@collationOrder U A) (fetchAveragePrices U products).
Proof.
  intros [Asym Trans]. unfold fetchAveragePrices.
  eapply JsArray.StronglySorted_weaken; [| apply JsArray.sort_sorted].
  - intros x y H. apply nameAfter_le. exact H.
  - intros x y H. apply nameAfter_le. apply Asym.
    unfold nameAfter in H. now apply Z.ltb_lt.
  - intros x y z. rewrite !nameAfter_le. apply Trans.
Qed.

(** C3 as stated fails: where the collation ranks U+00A0 with the white
    space, before the letters, ["A b"] (with U+00A0) is listed before
    ["Ab"], and by code unit U+00A0 comes after [b]. *)
Lemma names_not_in_ordinal_order :
  ~ StronglySorted (@ordinalOrder decimals)
      (fetchAveragePrices spacesFirstEngine spacedRows).
Proof.
  rewrite spacedRows_output. intros H.
  apply StronglySorted_inv in H. destruct H as [_ F].
  apply Forall_inv in F. apply F. reflexivity.
Qed.

(** C4, as the code has it: the name is trimmed before the other characters
    are removed, so white space they enclosed can end up at either end.
    Normalizing a normalized name trims it, and a third pass changes
    nothing. *)
Theorem normalize_twice_is_trim (U : Engine) (x : jsstring) :
  normalizeProductName U (normalizeProductName U x)
  = trim (normalizeProductName U x)
  /\ normalizeProductName U
       (normalizeProductName U (normalizeProductName U x))
     = normalizeProductName U (normalizeProductName U x).
Proof.
  assert (E : normalizeProductName U (normalizeProductName U x)
              = trim (normalizeProductName U x))
    by apply normalize_of_kept, normalize_kept.
  split; [exact E|].
  rewrite (normalize_of_kept U (normalize_kept U _)).
  rewrite E. apply trim_idem.
Qed.

(** C4 as stated fails: on any engine ["! a !"] normalizes to [" a "], and
    that normalizes to ["a"]. *)
Lemma normalize_not_idempotent :
  ~ (exists U : Engine,
       normalizeProductName U (normalizeProductName U (str "! a !"))
       = normalizeProductName U (str "! a !")).
Proof.
  intros [U H]. destruct (normalize_sample U) as [E1 E2].
  rewrite E1, E2 in H. vm_compute in H. discriminate.
Qed.

(** C6: every entry carries the normalized name of its group with the first
    unit as a capital, and every product, whatever its own spelling and
    whatever its place in the group, is reported under that name. *)
Theorem display_name_from_normalized (U : Engine) (A : Arithmetic)
    (products : list (Product A)) :
  (forall e, In e (fetchAveragePrices U products) ->
     exists p, In p products
       /\ name e = displayName (normalizeProductName U (product_name p))
       /\ category e = product_category p)
  /\ (forall p, In p products ->
        exists e, In e (fetchAveragePrices U products)
          /\ name e = displayName (normalizeProductName U (product_name p))
          /\ category e = product_category p).
Proof.
  split.
  - intros e H. apply out_iff in H. destruct H as (p & r & G & ->).
    exists p. repeat split.
    assert (I : In p (groupOf U p products)) by (rewrite G; now left).
    now apply filter_In in I.
  - intros p H.
    destruct (entry_for_product U _ _ H) as (p0 & r & _ & E & I).
    exists (averageOf U p0 r). unfold groupPair in E.
    inversion E as [[E1 E2]]. simpl. now rewrite E1.
Qed.

(** The first two scenarios of the spec. *)
Example scenario1_output :
  fetchAveragePrices asciiEngine scenario1
  = [mangoes;
     @Build_AveragePrice decimals (str "Rose") flower
       (Qdiv 30 (inject_Z 1)) 1].
Proof. reflexivity. Qed.

Example scenario2_output :
  fetchAveragePrices asciiEngine [row "Apple!!" fruit 100]
  = [@Build_AveragePrice decimals (str "Apple") fruit
       (Qdiv 100 (inject_Z 1)) 1].
Proof. reflexivity. Qed.

(** The spec's example of C6: "Mango" and "MANGO " in either order. *)
Example mango_either_order :
  List.map (@name decimals)
    (fetchAveragePrices asciiEngine
       [row "Mango" fruit 50; row "MANGO " fruit 60]) = [str "Mango"]
  /\ List.map (@name decimals)
       (fetchAveragePrices asciiEngine
          [row "MANGO " fruit 60; row "Mango" fruit 50]) = [str "Mango"].
Proof. split; reflexivity. Qed.

(** C8: the average of an entry is the sum of the prices of the products of
    its group, taken in the order of the list, divided by their number,
    which is the count of the entry; for a group of one product that is the
    price divided by one, the price itself in an arithmetic where dividing
    by one and printing and reading back a number change nothing. *)
Theorem average_is_sum_over_count (U : Engine) (A : Arithmetic)
    (products : list (Product A)) (e : AveragePrice A) :
  In e (fetchAveragePrices U products) ->
  exists p r,
    In p products
    /\ groupOf U p products = p :: r
    /\ name e = displayName (normalizeProductName U (product_name p))
    /\ category e = product_category p
    /\ shopCount e = List.length (p :: r)
    /\ avgPrice e = div A (sumPrices p r) (ofCount A (shopCount e))
    /\ (r = [] ->
        shopCount e = 1
        /\ avgPrice e = div A (reparse A (product_price p)) (ofCount A 1)
        /\ ((forall x, div A x (ofCount A 1) = x) ->
            (forall x, reparse A x = x) ->
            avgPrice e = product_price p)).
Proof.
  intros H. apply out_iff in H. destruct H as (p & r & G & ->).
  exists p, r.
  assert (I : In p (groupOf U p products)) by (rewrite G; now left).
  apply filter_In in I. destruct I as [I _].
  repeat split; auto; subst r; simpl; auto.
  intros D1 R1. unfold sumPrices. simpl. now rewrite D1, R1.
Qed.

(** C9: the counts of the entries add up to the number of products, every
    entry counts at least one product, and no products give no entries. *)
Theorem counts_partition_products (U : Engine) (A : Arithmetic)
    (products : list (Product A)) :
  sumCounts (fetchAveragePrices U products) = List.length products
  /\ Forall (fun e => 1 <= shopCount e) (fetchAveragePrices U products)
  /\ fetchAveragePrices U (@nil (Product A)) = [].
Proof.
  repeat split.
  - unfold fetchAveragePrices.
    rewrite <- (sumCounts_perm (JsArray.sort_perm (@nameAfter U A) _)).
    rewrite sumCounts_map. apply build_sum.
  - apply Forall_forall. intros e H.
    apply out_iff in H. destruct H as (p & r & _ & ->). simpl. lia.
Qed.

(** C10: a product whose name normalizes to the empty string is kept: the
    output, which exists for every list, has an entry with the empty display
    name and the category of the product, and the entry counts the product. *)
Theorem empty_name_forms_group (U : Engine) (A : Arithmetic)
    (products : list (Product A)) (p : Product A) :
  In p products ->
  normalizeProductName U (product_name p) = [] ->
  exists e,
    In e (fetchAveragePrices U products)
    /\ name e = []
    /\ category e = product_category p
    /\ shopCount e = List.length (groupOf U p products)
    /\ In p (groupOf U p products).
Proof.
  intros H E.
  destruct (entry_for_product U _ _ H) as (p0 & r & G & E0 & I).
  exists (averageOf U p0 r). unfold groupPair in E0.
  inversion E0 as [[E1 E2]]. simpl.
  repeat split; auto.
  - now rewrite E1, E.
  - now rewrite G.
  - apply filter_In. split; [exact H | apply sameGroup_refl].
Qed.

Lemma averages_sorted_by_collation_witness :
  consistentCollation spacesFirstEngine
  /\ StronglySorted (@collationOrder spacesFirstEngine decimals)
       (fetchAveragePrices spacesFirstEngine spacedRows).
Proof.
  split; [exact spacesFirstEngine_consistent|].
  exact (@averages_sorted_by_collation spacesFirstEngine decimals spacedRows
           spacesFirstEngine_consistent).
Defined.

Lemma one_group_per_pair_witness :
  List.length (fetchAveragePrices asciiEngine roses) = 2
  /\ exists e1 e2,
       In e1 (fetchAveragePrices asciiEngine roses)
       /\ In e2 (fetchAveragePrices asciiEngine roses)
       /\ e1 <> e2
       /\ name e1 = name e2
       /\ category e1 = product_category roseFruit
       /\ category e2 = product_category roseFlower
       /\ shopCount e1 = List.length (groupOf asciiEngine roseFruit roses)
       /\ shopCount e2 = List.length (groupOf asciiEngine roseFlower roses).
Proof.
  destruct (one_group_per_pair asciiEngine roses) as [L H].
  split.
  - rewrite L. reflexivity.
  - apply (H roseFruit roseFlower).
    + right. left. reflexivity.
    + left. reflexivity.
    + reflexivity.
    + discriminate.
Defined.

Lemma display_name_from_normalized_witness :
  In mangoSecond twoMangoes
  /\ exists e,
       In e (fetchAveragePrices asciiEngine twoMangoes)
       /\ name e = str "Mango"
       /\ category e = fruit.
Proof.
  assert (H : In mangoSecond twoMangoes) by (right; left; reflexivity).
  split; [exact H|].
  exact (proj2 (display_name_from_normalized asciiEngine twoMangoes)
           mangoSecond H).
Defined.

Lemma average_is_sum_over_count_witness :
  In mangoes (fetchAveragePrices asciiEngine scenario1)
  /\ exists p r,
       In p scenario1
       /\ groupOf asciiEngine p scenario1 = p :: r
       /\ name mangoes
          = displayName (normalizeProductName asciiEngine (product_name p))
       /\ category mangoes = product_category p
       /\ shopCount mangoes = List.length (p :: r)
       /\ avgPrice mangoes
          = div decimals (sumPrices p r) (ofCount decimals (shopCount mangoes))
       /\ (r = [] ->
           shopCount mangoes = 1
           /\ avgPrice mangoes
              = div decimals (reparse decimals (product_price p))
                    (ofCount decimals 1)
           /\ ((forall x, div decimals x (ofCount decimals 1) = x) ->
               (forall x, reparse decimals x = x) ->
               avgPrice mangoes = product_price p)).
Proof.
  assert (H : In mangoes (fetchAveragePrices asciiEngine scenario1))
    by (left; reflexivity).
  split; [exact H|].
  exact (average_is_sum_over_count asciiEngine scenario1 mangoes H).
Defined.

Lemma empty_name_forms_group_witness :
  In bangs scenario2bangs
  /\ normalizeProductName asciiEngine (product_name bangs) = []
  /\ exists e,
       In e (fetchAveragePrices asciiEngine scenario2bangs)
       /\ name e = []
       /\ category e = product_category bangs
       /\ shopCount e = List.length (groupOf asciiEngine bangs scenario2bangs)
       /\ In bangs (groupOf asciiEngine bangs scenario2bangs).
Proof.
  assert (H : In bangs scenario2bangs) by (right; left; reflexivity).
  assert (E : normalizeProductName asciiEngine (product_name bangs) = [])
    by reflexivity.
  split; [exact H|]. split; [exact E|].
  exact (empty_name_forms_group asciiEngine scenario2bangs bangs H E).
Defined.

End PriceAggregator.

(* ================================================================== *)
(** ** The distance formula ([BuyerDashboard.tsx]) over the real numbers *)
(* ================================================================== *)

Module RealDistance.

Local Open Scope R_scope.

(** [calculateDistance] with numbers read as real numbers: [Math.sin],
    [Math.cos], [Math.sqrt] and [Math.PI] as the functions and the constant
    of analysis they approximate, and no number is [NaN].  The code
    computes in IEEE doubles, which [DistanceRanker] below models; this
    reading serves the two identities of the formula only. *)

(** [Math.atan2(y, x)]: the angle of the point [(x, y)], in [(-PI, PI]],
    and [0] at the origin. *)
Definition atan2 (y x : R) : R :=
  if Rlt_dec 0 x then atan (y / x)
  else if Rlt_dec x 0 then
    if Rle_dec 0 y then atan (y / x) + PI else atan (y / x) - PI
  else if Rlt_dec 0 y then PI / 2
  else if Rlt_dec y 0 then - (PI / 2)
  else 0.

Definition calculateDistance (lat1 lon1 lat2 lon2 : R) : R :=
  let R := 6371 in
  let dLat := (lat2 - lat1) * (PI / 180) in
  let dLon := (lon2 - lon1) * (PI / 180) in
  let a :=
    sin (dLat / 2) * sin (dLat / 2) +
    cos (lat1 * (PI / 180)) *
      cos (lat2 * (PI / 180)) *
      sin (dLon / 2) *
      sin (dLon / 2) in
  let c := 2 * atan2 (sqrt a) (sqrt (1 - a)) in
  R * c.

(** The value of the local [a] of [calculateDistance], over the reals. *)
Definition haversineTerm (lat1 lon1 lat2 lon2 : R) : R :=
  let dLat := (lat2 - lat1) * (PI / 180) in
  let dLon := (lon2 - lon1) * (PI / 180) in
  sin (dLat / 2) * sin (dLat / 2) +
  cos (lat1 * (PI / 180)) *
    cos (lat2 * (PI / 180)) *
    sin (dLon / 2) *
    sin (dLon / 2).

(** *** Facts *)

Lemma calculateDistance_term (lat1 lon1 lat2 lon2 : R) :
  calculateDistance lat1 lon1 lat2 lon2
  = 6371 * (2 * atan2 (sqrt (haversineTerm lat1 lon1 lat2 lon2))
                      (sqrt (1 - haversineTerm lat1 lon1 lat2 lon2))).
Proof. reflexivity. Qed.



(** X11: a place is at distance zero from itself. *)
Lemma calculateDistance_self (lat1 lon1 : R) :
  calculateDistance lat1 lon1 lat1 lon1 = 0.
Proof.
  rewrite calculateDistance_term.
  assert (E : haversineTerm lat1 lon1 lat1 lon1 = 0).
  { unfold haversineTerm. cbv zeta.
    replace ((lat1 - lat1) * (PI / 180) / 2) with 0 by field.
    replace ((lon1 - lon1) * (PI / 180) / 2) with 0 by field.
    rewrite sin_0. ring. }
  rewrite E, sqrt_0, Rminus_0_r, sqrt_1.
  unfold atan2. destruct (Rlt_dec 0 1) as [_ | N]; [|lra].
  replace (0 / 1) with 0 by field. rewrite atan_0. ring.
Qed.

End RealDistance.

(* ================================================================== *)
(** ** The distance ranker ([BuyerDashboard.tsx]) *)
(* ================================================================== *)

Module DistanceRanker.

Import JsString.
Import PrimFloat.

Local Open Scope float_scope.

(** The numbers of the code are IEEE 754 doubles, and [+], [-], [*], [/]
    and [Math.sqrt] round as the standard says.  [Math.sin], [Math.cos] and
    [Math.atan2] are the engine's: ECMAScript leaves their values to the
    implementation. *)
Record MathEngine : Type := {
  Math_sin : float -> float;
  Math_cos : float -> float;
  Math_atan2 : float -> float -> float
}.

(** [Math.PI]: the double 3.141592653589793. *)
Definition Math_PI : float := 0x1.921fb54442d18p+1.

(** [Math.sqrt]: [NaN] for a number below zero. *)
Definition Math_sqrt (x : float) : float := sqrt x.

(** [interface Shop]; a row of the store has no [distance]. *)
Record Shop : Type := {
  id : jsstring;
  shop_name : jsstring;
  owner_name : jsstring;
  address : jsstring;
  latitude : float;
  longitude : float;
  phone : option jsstring;
  distance : option float
}.

(** The state [userLocation] when it is not [null]. *)
Record LatLng : Type := { lat : float; lng : float }.

Section Ranker.

Variable M : MathEngine.

Definition calculateDistance (lat1 lon1 lat2 lon2 : float) : float :=
  let R := 6371 in
  let dLat := (lat2 - lat1) * (Math_PI / 180) in
  let dLon := (lon2 - lon1) * (Math_PI / 180) in
  let a :=
    Math_sin M (dLat / 2) * Math_sin M (dLat / 2) +
    Math_cos M (lat1 * (Math_PI / 180)) *
      Math_cos M (lat2 * (Math_PI / 180)) *
      Math_sin M (dLon / 2) *
      Math_sin M (dLon / 2) in
  let c := 2 * Math_atan2 M (Math_sqrt a) (Math_sqrt (1 - a)) in
  R * c.

(** The callback of [shopsWithDistance.map]: the shop with its [distance]
    set ([Number] of a number is the number). *)
Definition withDistance (userLocation : LatLng) (shop : Shop) : Shop :=
  {| id := id shop;
     shop_name := shop_name shop;
     owner_name := owner_name shop;
     address := address shop;
     latitude := latitude shop;
     longitude := longitude shop;
     phone := phone shop;
     distance :=
       Some (calculateDistance (lat userLocation) (lng userLocation)
               (latitude shop) (longitude shop)) |}.

(** [a.distance || 0]: a missing distance counts as [0], and so do the
    other values that are not truthy, [NaN] and the two zeros. *)
Definition distanceOr0 (shop : Shop) : float :=
  match distance shop with
  | Some d => if is_nan d || is_zero d then 0 else d
  | None => 0
  end.

(** The compare function [(a, b) => (a.distance || 0) - (b.distance || 0)]
    and whether its result is above zero (a [NaN] is not). *)
Definition compareDistance (a b : Shop) : float :=
  distanceOr0 a - distanceOr0 b.

Definition fartherThan (a b : Shop) : bool := 0 <? compareDistance a b.

(** The array handed to [setShops], from the state [userLocation] and the
    [data] of the query. *)
Definition fetchShops (userLocation : option LatLng)
    (data : option (list Shop)) : list Shop :=
  let shopsWithDistance := match data with Some rows => rows | None => [] end in
  match userLocation with
  | Some location =>
      JsArray.sort fartherThan
        (List.map (withDistance location) shopsWithDistance)
  | None => shopsWithDistance
  end.

End Ranker.

(** *** The vocabulary of the statements *)

(** A shop with the distance [d] as its [distance]. *)
Definition annotated (d : float) (shop : Shop) : Shop :=
  {| id := id shop;
     shop_name := shop_name shop;
     owner_name := owner_name shop;
     address := address shop;
     latitude := latitude shop;
     longitude := longitude shop;
     phone := phone shop;
     distance := Some d |}.

(** The shops the compare function ranks as [k]: those whose
    [distance || 0] is the number [k]. *)
Definition rankedAs (k : float) (shop : Shop) : bool :=
  distanceOr0 shop =? k.

(** A buyer at 8 degrees north on the prime meridian, a shop one degree to
    the east, and a shop at the antipode of the buyer. *)
Definition buyer : LatLng := {| lat := 8; lng := 0 |}.

Definition nearShop : Shop :=
  {| id := str "s1"; shop_name := str "Near Stall";
     owner_name := str "Asha"; address := str "1 Shore Road";
     latitude := 8; longitude := 1; phone := None; distance := None |}.

Definition antipodeShop : Shop :=
  {| id := str "s2"; shop_name := str "Far Stall";
     owner_name := str "Vikram"; address := str "2 Reef Road";
     latitude := -8; longitude := 180; phone := None; distance := None |}.

(** What an engine computes for the antipode: the sine of
    -0.13962634015954636 is -0.13917310096006544, the cosine of
    0.13962634015954636 and of its opposite is 0.9902680687415704, the sine
    of 1.5707963267948966 is 1 (each the double nearest to the true value,
    and the value of both the fdlibm routines of V8 and of glibc), and
    [Math.atan2] of a [NaN] is [NaN]. *)
Definition antipodeTrig (M : MathEngine) : Prop :=
  Math_sin M (-0x1.1df46a2529d39p-3) = -0x1.1d06c968d9e19p-3
  /\ Math_cos M 0x1.1df46a2529d39p-3 = 0x1.fb046a930947ap-1
  /\ Math_cos M (-0x1.1df46a2529d39p-3) = 0x1.fb046a930947ap-1
  /\ Math_sin M 0x1.921fb54442d18p+0 = 1
  /\ forall y, Math_atan2 M y nan = nan.

(** What an engine computes for the shop one degree to the east: the sine
    of 0 is 0, the sine of 0.008726646259971648 is 0.008726535498373935, and
    [Math.atan2(0.008641609454779514, 0.9999626605959)] is
    0.00864171701390183. *)
Definition nearTrig (M : MathEngine) : Prop :=
  Math_sin M 0 = 0
  /\ Math_sin M 0x1.1df46a2529d39p-7 = 0x1.1df37c4954c21p-7
  /\ Math_atan2 M 0x1.1b2b12ff1d530p-7 0x1.fffb1b18f6092p-1
     = 0x1.1b2bf9fa5e0c7p-7.

(** An engine with these values, and [NaN] where the examples do not ask. *)
Definition sampleMath : MathEngine :=
  {| Math_sin := fun x =>
       if x =? -0x1.1df46a2529d39p-3 then -0x1.1d06c968d9e19p-3
       else if x =? 0x1.921fb54442d18p+0 then 1
       else if x =? 0 then 0
       else if x =? 0x1.1df46a2529d39p-7 then 0x1.1df37c4954c21p-7
       else nan;
     Math_cos := fun x =>
       if x =? 0x1.1df46a2529d39p-3 then 0x1.fb046a930947ap-1
       else if x =? -0x1.1df46a2529d39p-3 then 0x1.fb046a930947ap-1
       else nan;
     Math_atan2 := fun y x =>
       if is_nan x then nan
       else if (y =? 0x1.1b2b12ff1d530p-7) && (x =? 0x1.fffb1b18f6092p-1)
       then 0x1.1b2bf9fa5e0c7p-7
       else nan |}.

(** *** Facts *)

Lemma sub_self_not_positive (x : float) : (0 <? x - x) = false.
Proof.
  rewrite FloatAxioms.ltb_spec, FloatAxioms.sub_spec.
  destruct (FloatOps.Prim2SF x) as [s | s | | s m e];
    try reflexivity; try (destruct s; reflexivity).
  unfold FloatAxioms.SF64sub, SpecFloat.SFsub. cbv zeta.
  rewrite Z.sub_diag. reflexivity.
Qed.

Lemma eqb_cases (x y : float) :
  (x =? y) = true -> x = y \/ (is_zero x = true /\ is_zero y = true).
Proof.
  unfold is_zero. rewrite !FloatAxioms.eqb_spec. intros H.
  destruct (FloatOps.Prim2SF x) as [s | s | | s m e] eqn:X;
    destruct (FloatOps.Prim2SF y) as [t | t | | t n f] eqn:Y;
    try discriminate H;
    try (right; split; reflexivity);
    try (destruct s; discriminate H);
    try (destruct t; discriminate H).
  - left. apply FloatAxioms.Prim2SF_inj. rewrite X, Y.
    destruct s, t; try discriminate H; reflexivity.
  - left. apply FloatAxioms.Prim2SF_inj. rewrite X, Y.
    unfold SpecFloat.SFeqb, SpecFloat.SFcompare in H.
    destruct s, t; try discriminate H;
      destruct (Z.compare_spec e f) as [-> | L | L]; try discriminate H;
      destruct (Pos.compare_cont Eq m n) eqn:C; try discriminate H;
      apply Pcompare_Eq_eq in C; now subst.
Qed.

Lemma distanceOr0_zero (shop : Shop) :
  is_zero (distanceOr0 shop) = true -> distanceOr0 shop = 0.
Proof.
  unfold distanceOr0. destruct (distance shop) as [d|]; [|reflexivity].
  destruct (is_nan d); [reflexivity|].
  destruct (is_zero d) eqn:Z; [reflexivity|]. simpl. congruence.
Qed.

Lemma rankedAs_unordered (k : float) (a b : Shop) :
  rankedAs k a = true -> rankedAs k b = true -> fartherThan a b = false.
Proof.
  unfold rankedAs, fartherThan, compareDistance. intros Ha Hb.
  apply eqb_cases in Ha, Hb.
  assert (Ka : is_zero k = true -> distanceOr0 a = 0).
  { intros Zk. apply distanceOr0_zero.
    destruct Ha as [-> | [Za _]]; assumption. }
  assert (Kb : is_zero k = true -> distanceOr0 b = 0).
  { intros Zk. apply distanceOr0_zero.
    destruct Hb as [-> | [Zb _]]; assumption. }
  assert (E : distanceOr0 a = distanceOr0 b).
  { destruct Ha as [Ea | [_ Zk]].
    - destruct Hb as [Eb | [_ Zk]]; [congruence|].
      now rewrite (Ka Zk), (Kb Zk).
    - now rewrite (Ka Zk), (Kb Zk). }
  rewrite E. apply sub_self_not_positive.
Qed.

Lemma sampleMath_antipode : antipodeTrig sampleMath.
Proof. repeat split. Qed.

Lemma sampleMath_near : nearTrig sampleMath.
Proof. repeat split. Qed.

(** The local [a] at the antipode: above one by one unit in the last
    place, so that [1 - a] is below zero. *)
Lemma antipode_term (M : MathEngine) :
  antipodeTrig M ->
  let k := Math_PI / 180 in
  Math_sin M ((-8 - 8) * k / 2) * Math_sin M ((-8 - 8) * k / 2)
  + Math_cos M (8 * k) * Math_cos M (-8 * k)
    * Math_sin M ((180 - 0) * k / 2) * Math_sin M ((180 - 0) * k / 2)
  = 0x1.0000000000001p+0.
Proof.
  intros (S1 & C1 & C2 & S2 & _). destruct M as [msin mcos matan2].
  cbn [Math_sin Math_cos] in *. vm_compute.
  rewrite S1, C1, C2, S2. reflexivity.
Qed.

(** *** The ranker without a location *)

(** C7: without a buyer location the output is the input: the same shops in
    the same order, none with a [distance] it did not have. *)
Theorem unranked_without_location (M : MathEngine) (shops : list Shop) :
  fetchShops M None (Some shops) = shops
  /\ List.map distance (fetchShops M None (Some shops))
     = List.map distance shops.
Proof. split; reflexivity. Qed.

(** *** The ranking on any engine *)

(** X21: whatever the engine computes, the ranking loses no shop and adds
    none, each shop carries what [calculateDistance] returned for it (a
    [NaN] included), and the shops the compare function ranks alike keep the
    order they had in the input. *)
Theorem ranking_keeps_shops_and_ties (M : MathEngine) (location : LatLng)
    (shops : list Shop) :
  let ranked := fetchShops M (Some location) (Some shops) in
  Permutation (List.map (withDistance M location) shops) ranked
  /\ Forall (fun e =>
               distance e
               = Some (calculateDistance M (lat location) (lng location)
                         (latitude e) (longitude e))) ranked
  /\ forall k,
       filter (rankedAs k) ranked
       = filter (rankedAs k) (List.map (withDistance M location) shops).
Proof.
  intros ranked. unfold fetchShops in ranked.
  assert (P : Permutation (List.map (withDistance M location) shops) ranked)
    by apply JsArray.sort_perm.
  repeat split.
  - exact P.
  - apply (Permutation_Forall P). apply Forall_forall. intros e H.
    apply in_map_iff in H. destruct H as [shop [<- _]]. reflexivity.
  - intros k. apply JsArray.sort_filter. apply rankedAs_unordered.
Qed.

(** *** The ranking at the antipode *)

(** C5: from 8 degrees north on the prime meridian to its antipode
    [calculateDistance] returns [NaN], where the haversine distance is half
    the circumference of the sphere: the rounded [a] is above one and the
    square root of [1 - a] is not a number. *)
Theorem antipode_distance_is_NaN (M : MathEngine) :
  antipodeTrig M ->
  calculateDistance M 8 0 (-8) 180 = nan.
Proof.
  intros H. assert (T := antipode_term H).
  destruct H as (_ & _ & _ & _ & A).
  unfold calculateDistance. cbv zeta in *. rewrite T.
  change (Math_sqrt (1 - 0x1.0000000000001p+0)) with nan.
  rewrite A. reflexivity.
Qed.

(** C2: ranked from 8 degrees north on the prime meridian, the shop at the
    antipode comes before the shop one degree to the east: its distance is
    [NaN], which the compare function counts as zero, and the distances of
    the output, [NaN] and then 110.11275819113712, are not in
    non-decreasing order. *)
Theorem antipode_ranked_first (M : MathEngine) :
  antipodeTrig M -> nearTrig M ->
  fetchShops M (Some buyer) (Some [nearShop; antipodeShop])
  = [annotated nan antipodeShop;
     annotated 0x1.b87376e21d290p+6 nearShop].
Proof.
  intros H (S0 & S1 & A1).
  assert (F : calculateDistance M 8 0 (-8) 180 = nan).
  { assert (T := antipode_term H). destruct H as (_ & _ & _ & _ & A).
    unfold calculateDistance. cbv zeta in *. rewrite T.
    change (Math_sqrt (1 - 0x1.0000000000001p+0)) with nan.
    rewrite A. reflexivity. }
  assert (N : calculateDistance M 8 0 8 1 = 0x1.b87376e21d290p+6).
  { destruct H as (_ & C1 & _ & _ & _). destruct M as [msin mcos matan2].
    cbn [Math_sin Math_cos Math_atan2] in *.
    unfold calculateDistance. cbn [Math_sin Math_cos Math_atan2].
    vm_compute. rewrite S0, S1, C1. vm_compute. rewrite A1. reflexivity. }
  unfold fetchShops, withDistance, buyer, nearShop, antipodeShop.
  cbn [List.map lat lng latitude longitude]. rewrite F, N.
  reflexivity.
Qed.

Lemma antipode_distance_is_NaN_witness :
  antipodeTrig sampleMath
  /\ calculateDistance sampleMath 8 0 (-8) 180 = nan.
Proof.
  split; [exact sampleMath_antipode|].
  exact (@antipode_distance_is_NaN sampleMath sampleMath_antipode).
Defined.

Lemma antipode_ranked_first_witness :
  antipodeTrig sampleMath /\ nearTrig sampleMath
  /\ fetchShops sampleMath (Some buyer) (Some [nearShop; antipodeShop])
     = [annotated nan antipodeShop;
        annotated 0x1.b87376e21d290p+6 nearShop].
Proof.
  split; [exact sampleMath_antipode|]. split; [exact sampleMath_near|].
  exact (@antipode_ranked_first sampleMath
           sampleMath_antipode sampleMath_near).
Defined.

End DistanceRanker.

(* ================================================================== *)
(** ** The search box of the buyer dashboard ([BuyerDashboard.tsx]) *)
(* ================================================================== *)

Module ShopSearch.

Import JsString DistanceRanker.

Local Open Scope N_scope.

(** [s.startsWith(q)] *)
Fixpoint startsWith (s q : jsstring) {struct q} : bool :=
  match q, s with
  | [], _ => true
  | _ :: _, [] => false
  | c :: q', d :: s' => (d =? c) && startsWith s' q'
  end.

(** [s.includes(q)]: [q] stands somewhere in [s], unit for unit. *)
Fixpoint includes (s q : jsstring) : bool :=
  startsWith s q
  || match s with
     | [] => false
     | _ :: r => includes r q
     end.

Section Search.

Variable U : Engine.

(** The callback of [shops.filter]. *)
Definition matchesQuery (searchQuery : jsstring) (shop : Shop) : bool :=
  let query := toLowerCase U searchQuery in
  includes (toLowerCase U (shop_name shop)) query
  || includes (toLowerCase U (owner_name shop)) query
  || includes (toLowerCase U (address shop)) query.

Definition filteredShops (shops : list Shop) (searchQuery : jsstring)
  : list Shop :=
  filter (matchesQuery searchQuery) shops.

End Search.

(** The fields the search looks into. *)
Definition searchedFields (shop : Shop) : list jsstring :=
  [shop_name shop; owner_name shop; address shop].

(** Sample shops. *)
Definition greenGrocer : Shop :=
  {| id := str "s1"; shop_name := str "Green Grocer";
     owner_name := str "Asha Rao"; address := str "12 Market Road";
     latitude := PrimFloat.zero; longitude := PrimFloat.one; phone := None; distance := None |}.

Definition roseCorner : Shop :=
  {| id := str "s2"; shop_name := str "Rose Corner";
     owner_name := str "Vikram"; address := str "4 Hill Street";
     latitude := PrimFloat.zero; longitude := PrimFloat.two; phone := None; distance := None |}.

(** *** Facts *)

Lemma startsWith_spec (s q : jsstring) :
  startsWith s q = true <-> exists post, s = q ++ post.
Proof.
  revert s. induction q as [|c q IH]; intros s; simpl.
  - split; [intros _; now exists s | reflexivity].
  - destruct s as [|d s].
    + split; [discriminate | intros [post H]; discriminate].
    + rewrite andb_true_iff, N.eqb_eq, IH. split.
      * intros [-> [post ->]]. now exists post.
      * intros [post H]. inversion H. subst. split; [reflexivity|].
        now exists post.
Qed.

Lemma includes_spec (s q : jsstring) :
  includes s q = true <-> exists pre post, s = pre ++ q ++ post.
Proof.
  induction s as [|d s IH]; simpl; rewrite orb_true_iff, startsWith_spec.
  - split.
    + intros [[post H] | H]; [|discriminate]. now exists [], post.
    + intros [pre [post H]]. left.
      destruct pre; [now exists post | discriminate].
  - rewrite IH. split.
    + intros [[post H] | [pre [post H]]].
      * now exists [], post.
      * exists (d :: pre), post. simpl. now rewrite H.
    + intros [[|e pre] [post H]].
      * left. now exists post.
      * right. inversion H. subst. now exists pre, post.
Qed.

Lemma includes_empty (s : jsstring) : includes s [] = true.
Proof. apply includes_spec. now exists [], s. Qed.

Lemma includes_trans (s q' q : jsstring) :
  includes s q' = true -> includes q' q = true -> includes s q = true.
Proof.
  rewrite !includes_spec.
  intros [pre [post ->]] [pre' [post' ->]].
  exists (pre ++ pre'), (post' ++ post). now rewrite <- !app_assoc.
Qed.

Lemma lowerFrom_ascii (U : Engine) (s before : jsstring) :
  Forall (fun c => isAscii c = true) s ->
  lowerFrom U before s = List.map foldCase s.
Proof.
  intros H. revert before.
  induction H as [|c s Hc _ IH]; intros before; simpl; [reflexivity|].
  rewrite IH. unfold lowerUnit, foldCase.
  destruct (isUpperAZ c); [reflexivity|]. now rewrite Hc.
Qed.

Lemma toLowerCase_ascii (U : Engine) (s : jsstring) :
  Forall (fun c => isAscii c = true) s ->
  toLowerCase U s = List.map foldCase s.
Proof. apply lowerFrom_ascii. Qed.

Lemma matchesQuery_field (U : Engine) (searchQuery : jsstring) (shop : Shop) :
  matchesQuery U searchQuery shop = true <->
  exists field, In field (searchedFields shop)
    /\ includes (toLowerCase U field) (toLowerCase U searchQuery) = true.
Proof.
  unfold matchesQuery, searchedFields. cbv zeta.
  rewrite !orb_true_iff. simpl. split.
  - intros [[H | H] | H]; eauto 6.
  - intros [field [[<- | [<- | [<- | []]]] H]]; auto.
Qed.

(** *** The properties of the search *)

(** X1: with nothing typed every shop is listed, in the order given. *)
Theorem empty_query_lists_all (U : Engine) (shops : list Shop) :
  filteredShops U shops [] = shops.
Proof.
  unfold filteredShops. induction shops as [|shop shops IH]; simpl.
  - reflexivity.
  - unfold matchesQuery at 1. cbv zeta.
    change (toLowerCase U []) with (@nil codeUnit).
    now rewrite includes_empty, IH.
Qed.

(** X3: typing on narrows the list: when the lower-cased new query holds the
    lower-cased old one, searching the old result for the new query gives
    what searching all shops for it gives. *)
Theorem longer_query_narrows (U : Engine) (shops : list Shop)
    (old new : jsstring) :
  includes (toLowerCase U new) (toLowerCase U old) = true ->
  filteredShops U (filteredShops U shops old) new = filteredShops U shops new.
Proof.
  intros H. unfold filteredShops.
  induction shops as [|shop shops IH]; simpl; [reflexivity|].
  destruct (matchesQuery U new shop) eqn:N.
  - assert (O : matchesQuery U old shop = true).
    { apply matchesQuery_field in N. destruct N as [field [I N]].
      apply matchesQuery_field. exists field. split; [exact I|].
      exact (includes_trans _ _ _ N H). }
    rewrite O. simpl. now rewrite N, IH.
  - destruct (matchesQuery U old shop); simpl; [now rewrite N, IH | exact IH].
Qed.

(** X4: on ASCII text the search ignores the case of letters: a shop one of
    whose searched fields holds the query, both read without case, is
    listed. *)
Theorem ascii_search_ignores_case (U : Engine) (shops : list Shop)
    (searchQuery field : jsstring) (shop : Shop) :
  In shop shops ->
  In field (searchedFields shop) ->
  Forall (fun c => isAscii c = true) field ->
  Forall (fun c => isAscii c = true) searchQuery ->
  (exists pre post,
     List.map foldCase field = pre ++ List.map foldCase searchQuery ++ post) ->
  In shop (filteredShops U shops searchQuery).
Proof.
  intros Hs Hf Af Aq Hsub. apply filter_In. split; [exact Hs|].
  apply matchesQuery_field. exists field. split; [exact Hf|].
  rewrite (toLowerCase_ascii U Af), (toLowerCase_ascii U Aq).
  now apply includes_spec.
Qed.

Lemma longer_query_narrows_witness :
  includes (toLowerCase asciiEngine (str "GRO"))
           (toLowerCase asciiEngine (str "gr")) = true
  /\ filteredShops asciiEngine
       (filteredShops asciiEngine [roseCorner; greenGrocer] (str "gr"))
       (str "GRO")
     = filteredShops asciiEngine [roseCorner; greenGrocer] (str "GRO").
Proof.
  assert (H : includes (toLowerCase asciiEngine (str "GRO"))
                       (toLowerCase asciiEngine (str "gr")) = true)
    by reflexivity.
  split; [exact H|].
  exact (@longer_query_narrows asciiEngine [roseCorner; greenGrocer]
           (str "gr") (str "GRO") H).
Defined.

Lemma ascii_search_ignores_case_witness :
  In greenGrocer [roseCorner; greenGrocer]
  /\ In (str "Green Grocer") (searchedFields greenGrocer)
  /\ Forall (fun c => isAscii c = true) (str "Green Grocer")
  /\ Forall (fun c => isAscii c = true) (str "GROC")
  /\ (exists pre post,
        List.map foldCase (str "Green Grocer")
        = pre ++ List.map foldCase (str "GROC") ++ post)
  /\ In greenGrocer
       (filteredShops asciiEngine [roseCorner; greenGrocer] (str "GROC")).
Proof.
  assert (H1 : In greenGrocer [roseCorner; greenGrocer])
    by (right; left; reflexivity).
  assert (H2 : In (str "Green Grocer") (searchedFields greenGrocer))
    by (left; reflexivity).
  assert (H3 : Forall (fun c => isAscii c = true) (str "Green Grocer"))
    by (repeat constructor).
  assert (H4 : Forall (fun c => isAscii c = true) (str "GROC"))
    by (repeat constructor).
  assert (H5 : exists pre post,
             List.map foldCase (str "Green Grocer")
             = pre ++ List.map foldCase (str "GROC") ++ post)
    by (exists (str "green "), (str "er"); reflexivity).
  repeat (split; [assumption|]).
  exact (@ascii_search_ignores_case asciiEngine [roseCorner; greenGrocer]
           (str "GROC") (str "Green Grocer") greenGrocer H1 H2 H3 H4 H5).
Defined.

End ShopSearch.

(* ================================================================== *)
(** ** What the average-price panel shows ([AveragePricePanel.tsx]) *)
(* ================================================================== *)

Module PricePanel.

Import JsString PriceAggregator.

(** What the card holds: the loading text, the text [No data available], or
    one row per entry of [averagePrices]. *)
Inductive PanelView (A : Arithmetic) : Type :=
| LoadingText
| NoData
| Rows (items : list (AveragePrice A)).

Arguments LoadingText {A}.
Arguments NoData {A}.

(** [loading ? ... : averagePrices.length === 0 ? ... : rows] *)
Definition panelView (A : Arithmetic) (loading : bool)
    (averagePrices : list (AveragePrice A)) : PanelView A :=
  if loading then LoadingText
  else if Nat.eqb (List.length averagePrices) 0 then NoData
  else Rows averagePrices.

(** What identifies a row for its reader, and what it says beside the
    average. *)
Definition rowKey (A : Arithmetic) (e : AveragePrice A)
  : jsstring * jsstring :=
  (name e, category e).

Definition rowTriple (A : Arithmetic) (e : AveragePrice A)
  : jsstring * jsstring * nat :=
  (name e, category e, shopCount e).

(** *** Facts *)

Ltac bools :=
  repeat match goal with
  | H : _ && _ = true |- _ => apply andb_true_iff in H; destruct H
  | H : _ || _ = true |- _ => apply orb_true_iff in H; destruct H
  | H : _ && _ = false |- _ => apply andb_false_iff in H; destruct H
  | H : (_ <=? _)%N = true |- _ => apply N.leb_le in H
  | H : (_ <=? _)%N = false |- _ => apply N.leb_gt in H
  | H : (_ =? _)%N = true |- _ => apply N.eqb_eq in H
  end.

Lemma first_unit_inj (c1 c2 : codeUnit) :
  kept c1 = true -> kept c2 = true ->
  (if isLowerAZ c1 then (c1 - 32)%N else c1)
  = (if isLowerAZ c2 then (c2 - 32)%N else c2) -> c1 = c2.
Proof.
  intros H1 H2.
  unfold kept, isLowerAZ, isDigit, isWhiteSpace in *.
  destruct ((97 <=? c1) && (c1 <=? 122))%N eqn:L1;
  destruct ((97 <=? c2) && (c2 <=? 122))%N eqn:L2;
    simpl in H1, H2; intros E; bools; lia.
Qed.

Section Facts.

Variable U : Engine.
Variable A : Arithmetic.

Implicit Types (p q : Product A) (products : list (Product A)).

Lemma displayName_inj (n1 n2 : jsstring) :
  Forall (fun c => kept c = true) n1 ->
  Forall (fun c => kept c = true) n2 ->
  displayName n1 = displayName n2 -> n1 = n2.
Proof.
  intros K1 K2.
  destruct K1 as [|c1 r1 H1 _], K2 as [|c2 r2 H2 _]; simpl;
    try discriminate; [reflexivity|].
  intros E. inversion E as [[Ec Er]]. f_equal.
  exact (first_unit_inj c1 c2 H1 H2 Ec).
Qed.

Lemma map_entry products (k : jsstring) (v : Entry A) :
  In (k, v) (buildPriceMap U products) ->
  exists p r, groupOf U p products = p :: r
    /\ k = productKey U p
    /\ toAverage U (k, v) = averageOf U p r.
Proof.
  intros H. apply build_entry in H.
  destruct (filter (keyed U k) products) as [|p r] eqn:F; [discriminate|].
  simpl in H. inversion H as [Hv]. clear H.
  assert (I : In p (filter (keyed U k) products)) by (rewrite F; now left).
  apply filter_In in I. destruct I as [_ K]. apply eqb_eq in K. subst k.
  rewrite keyed_groupOf in F.
  exists p, r. repeat split; [exact F|]. apply toAverage_group.
Qed.

Lemma rowKey_entries_NoDup products :
  NoDup (List.map (fun kv => rowKey (toAverage U kv))
           (buildPriceMap U products)).
Proof.
  apply NoDup_map_NoDup_ForallPairs.
  - intros [k1 v1] [k2 v2] H1 H2 E.
    destruct (map_entry _ _ _ H1) as (p1 & r1 & _ & K1 & T1).
    destruct (map_entry _ _ _ H2) as (p2 & r2 & _ & K2 & T2).
    rewrite T1, T2 in E. unfold rowKey, averageOf in E. simpl in E.
    inversion E as [[En Ec]].
    apply displayName_inj in En; try apply normalize_kept.
    assert (K : k1 = k2).
    { subst k1 k2. unfold productKey. now rewrite En, Ec. }
    assert (G1 := In_get _ _ _ (build_NoDup U products) H1).
    assert (G2 := In_get _ _ _ (build_NoDup U products) H2).
    rewrite K in G1 |- *. f_equal. congruence.
  - apply (NoDup_map_inv fst). apply build_NoDup.
Qed.

Lemma rowKey_NoDup products :
  NoDup (List.map (@rowKey A) (fetchAveragePrices U products)).
Proof.
  unfold fetchAveragePrices.
  eapply Permutation_NoDup.
  - apply Permutation_map, JsArray.sort_perm.
  - rewrite map_map. apply rowKey_entries_NoDup.
Qed.

Lemma rowTriple_NoDup products :
  NoDup (List.map (@rowTriple A) (fetchAveragePrices U products)).
Proof.
  apply (NoDup_map_inv fst). rewrite map_map. apply rowKey_NoDup.
Qed.

Lemma rowTriple_iff products (t : jsstring * jsstring * nat) :
  In t (List.map (@rowTriple A) (fetchAveragePrices U products)) <->
  exists p, In p products
    /\ t = (displayName (normalizeProductName U (product_name p)),
            product_category p,
            List.length (groupOf U p products)).
Proof.
  rewrite in_map_iff. split.
  - intros [e [<- H]]. apply out_iff in H. destruct H as (p & r & G & ->).
    exists p. split.
    + assert (I : In p (groupOf U p products)) by (rewrite G; now left).
      now apply filter_In in I.
    + unfold rowTriple. simpl. now rewrite G.
  - intros [p [H ->]].
    destruct (entry_for_product U _ _ H) as (p0 & r & G & E & I).
    exists (averageOf U p0 r). split; [|exact I].
    unfold groupPair in E. inversion E as [[E1 E2]].
    unfold rowTriple. simpl. now rewrite G, E1.
Qed.

Lemma groupOf_perm_length p products (products' : list (Product A)) :
  Permutation products products' ->
  List.length (groupOf U p products) = List.length (groupOf U p products').
Proof.
  unfold groupOf. induction 1 as [|x l l' _ IH|x y l|l l' l'' _ IH1 _ IH2];
    simpl.
  - reflexivity.
  - destruct (sameGroup U p x); simpl; now rewrite IH.
  - destruct (sameGroup U p x), (sameGroup U p y); reflexivity.
  - now rewrite IH1.
Qed.

Lemma out_sum products :
  sumCounts (fetchAveragePrices U products) = List.length products.
Proof.
  unfold fetchAveragePrices.
  rewrite <- (sumCounts_perm (JsArray.sort_perm (@nameAfter U A) _)).
  rewrite sumCounts_map. apply build_sum.
Qed.

End Facts.

(** *** The properties of the panel *)

(** X5: once loaded, the panel says [No data available] exactly when the
    store returned no product row. *)
Theorem no_data_iff_no_products (U : Engine) (A : Arithmetic)
    (products : list (Product A)) :
  panelView false (fetchAveragePrices U products) = NoData
  <-> products = [].
Proof.
  unfold panelView. split.
  - intros H.
    destruct (fetchAveragePrices U products) as [|e l] eqn:E;
      [|discriminate].
    assert (S := out_sum U products). rewrite E in S. simpl in S.
    destruct products; [reflexivity | discriminate].
  - intros ->. reflexivity.
Qed.

(** X6: no two rows of the panel have the same display name and the same
    category. *)
Theorem rows_are_distinct (U : Engine) (A : Arithmetic)
    (products : list (Product A)) :
  NoDup (List.map (@rowKey A) (fetchAveragePrices U products)).
Proof.
  unfold fetchAveragePrices.
  apply (Permutation_NoDup
           (l := List.map (@rowKey A)
                   (List.map (@toAverage U A) (buildPriceMap U products)))).
  - apply Permutation_map, JsArray.sort_perm.
  - rewrite map_map. apply rowKey_entries_NoDup.
Qed.

(** X7: the order in which the store returns the product rows does not
    change which rows the panel has, nor the count of any of them: the
    names, categories and counts for a rearranged list are a rearrangement
    of those for the list. *)
Theorem row_order_is_irrelevant (U : Engine) (A : Arithmetic)
    (products products' : list (Product A)) :
  Permutation products products' ->
  Permutation (List.map (@rowTriple A) (fetchAveragePrices U products))
              (List.map (@rowTriple A) (fetchAveragePrices U products')).
Proof.
  intros P. apply NoDup_Permutation; try apply rowTriple_NoDup.
  intros t. rewrite !rowTriple_iff. split.
  - intros [p [H ->]]. exists p. split.
    + now apply (Permutation_in _ P).
    + now rewrite (groupOf_perm_length U p P).
  - intros [p [H ->]]. exists p. split.
    + now apply (Permutation_in _ (Permutation_sym P)).
    + now rewrite (groupOf_perm_length U p P).
Qed.

Lemma row_order_is_irrelevant_witness :
  Permutation [roseFruit; roseFlower; mangoSecond]
              [roseFlower; roseFruit; mangoSecond]
  /\ Permutation
       (List.map (@rowTriple decimals)
          (fetchAveragePrices asciiEngine
             [roseFruit; roseFlower; mangoSecond]))
       (List.map (@rowTriple decimals)
          (fetchAveragePrices asciiEngine
             [roseFlower; roseFruit; mangoSecond])).
Proof.
  assert (P : Permutation [roseFruit; roseFlower; mangoSecond]
                          [roseFlower; roseFruit; mangoSecond])
    by apply perm_swap.
  split; [exact P|].
  exact (row_order_is_irrelevant asciiEngine P).
Defined.

End PricePanel.

(* ================================================================== *)
(** ** The shop card ([ShopCard.tsx]) *)
(* ================================================================== *)

Module ShopCard.

Import JsString.

(** *** The rating line *)

(** The states [averageRating] and [reviewCount].  Ratings are whole numbers
    and their sum is exact; the quotient is read as the exact rational. *)
Record Ratings : Type := {
  averageRating : Q;
  reviewCount : nat
}.

(** [useState(0)], twice. *)
Definition initialRatings : Ratings :=
  {| averageRating := 0%Q; reviewCount := 0 |}.

(** [fetchReviews], from the [rating] column of the rows of the query
    ([None] when [data] is [null]) and the states before it. *)
Definition fetchReviews (data : option (list Z)) (state : Ratings) : Ratings :=
  match data with
  | Some rows =>
      if 0 <? List.length rows then
        {| averageRating :=
             (inject_Z (fold_left Z.add rows 0%Z)
              / inject_Z (Z.of_nat (List.length rows)))%Q;
           reviewCount := List.length rows |}
      else state
  | None => state
  end.

(** [averageRating > 0]: the card prints the average; otherwise it prints
    [No ratings]. *)
Definition showsRating (state : Ratings) : bool :=
  if Qlt_le_dec 0 (averageRating state) then true else false.

(** What the store lets into [reviews.rating]:
    [CHECK (rating >= 1 AND rating <= 5)]. *)
Definition storedRating (r : Z) : Prop := (1 <= r <= 5)%Z.

(** The result of a query: none, or rows the store holds. *)
Definition storedRows (data : option (list Z)) : Prop :=
  match data with
  | Some rows => Forall storedRating rows
  | None => True
  end.

(** What holds of the two states after any fetches: nothing fetched yet, or
    a count and an average of stored ratings. *)
Definition consistent (state : Ratings) : Prop :=
  (reviewCount state = 0%nat /\ averageRating state = 0%Q)
  \/ ((1 <= reviewCount state)%nat
      /\ (1 <= averageRating state <= 5)%Q).

(** *** Facts *)

Lemma sum_bounds (rows : list Z) (a : Z) :
  Forall storedRating rows ->
  (a + Z.of_nat (List.length rows) <= fold_left Z.add rows a
   <= a + 5 * Z.of_nat (List.length rows))%Z.
Proof.
  intros H. revert a.
  induction H as [|r rows Hr _ IH]; intros a.
  - simpl. lia.
  - unfold storedRating in Hr. specialize (IH (a + r)%Z).
    cbn [fold_left List.length]. lia.
Qed.

Lemma average_bounds (rows : list Z) :
  rows <> [] -> Forall storedRating rows ->
  (1 <= inject_Z (fold_left Z.add rows 0%Z)
        / inject_Z (Z.of_nat (List.length rows)) <= 5)%Q.
Proof.
  intros N H. assert (B := sum_bounds 0 H).
  assert (P : (0 < Z.of_nat (List.length rows))%Z)
    by (destruct rows; [congruence | simpl; lia]).
  assert (PQ : (0 < inject_Z (Z.of_nat (List.length rows)))%Q)
    by (change 0%Q with (inject_Z 0); now rewrite <- Zlt_Qlt).
  split.
  - apply Qle_shift_div_l; [exact PQ|].
    change 1%Q with (inject_Z 1).
    rewrite <- inject_Z_mult, <- Zle_Qle. lia.
  - apply Qle_shift_div_r; [exact PQ|].
    change 5%Q with (inject_Z 5).
    rewrite <- inject_Z_mult, <- Zle_Qle. lia.
Qed.

Lemma showsRating_pos (state : Ratings) :
  showsRating state = true <-> (0 < averageRating state)%Q.
Proof.
  unfold showsRating.
  destruct (Qlt_le_dec 0 (averageRating state)) as [H | H].
  - tauto.
  - split; [discriminate|]. intros L.
    exfalso. exact (Qlt_not_le _ _ L H).
Qed.

Lemma fetchReviews_consistent (data : option (list Z)) (state : Ratings) :
  storedRows data -> consistent state ->
  consistent (fetchReviews data state).
Proof.
  intros S C. destruct data as [rows|]; simpl; [|exact C].
  destruct rows as [|r rows]; [exact C|].
  change (0 <? List.length (r :: rows)) with true. cbv iota.
  right. split; [simpl; lia|].
  apply average_bounds; [discriminate | exact S].
Qed.

Lemma consistent_shows (state : Ratings) :
  consistent state ->
  (showsRating state = true <-> (1 <= reviewCount state)%nat).
Proof.
  rewrite showsRating_pos. intros [[C A] | [C [A _]]].
  - rewrite C, A. split; [intros H; discriminate H | lia].
  - split; [intros _; exact C|]. intros _.
    eapply Qlt_le_trans; [|exact A]. reflexivity.
Qed.

Lemma fetches_consistent (fetches : list (option (list Z)))
    (state : Ratings) :
  Forall storedRows fetches -> consistent state ->
  consistent (fold_left (fun st data => fetchReviews data st) fetches state).
Proof.
  intros F. revert state.
  induction F as [|data fetches S _ IH]; intros state C; simpl.
  - exact C.
  - apply IH. now apply fetchReviews_consistent.
Qed.

Lemma fetches_keep_count (fetches : list (option (list Z)))
    (state : Ratings) :
  (1 <= reviewCount state)%nat ->
  (1 <= reviewCount
          (fold_left (fun st data => fetchReviews data st) fetches state))%nat.
Proof.
  revert state.
  induction fetches as [|data fetches IH]; intros state C; simpl.
  - exact C.
  - apply IH. destruct data as [[|r rows]|]; simpl; try exact C. lia.
Qed.

(** *** The properties of the rating line *)

(** X12: a fetch that returns reviews, their ratings as the store admits
    them, sets the count to their number and the average to a number from 1
    to 5, so that the card prints the average and not [No ratings]. *)
Theorem fetched_rating_in_range (rows : list Z) (state : Ratings) :
  rows <> [] ->
  Forall storedRating rows ->
  reviewCount (fetchReviews (Some rows) state) = List.length rows
  /\ (1 <= averageRating (fetchReviews (Some rows) state) <= 5)%Q
  /\ showsRating (fetchReviews (Some rows) state) = true.
Proof.
  intros N H.
  assert (B := average_bounds N H).
  destruct rows as [|r rows]; [congruence|].
  unfold fetchReviews.
  change (0 <? List.length (r :: rows)) with true. cbv iota.
  cbn [reviewCount averageRating].
  repeat split; try apply B.
  apply showsRating_pos. cbn [averageRating].
  eapply Qlt_le_trans; [|apply B]. reflexivity.
Qed.

(** X13: after any sequence of fetches of stored rows, starting from the
    initial states, the card prints an average exactly when its count of
    reviews is not zero; and once a fetch has returned a review the average
    stays printed, also after fetches that return nothing. *)
Theorem rating_line_consistent (fetches : list (option (list Z))) :
  Forall storedRows fetches ->
  let state :=
    fold_left (fun st data => fetchReviews data st) fetches initialRatings in
  (showsRating state = true <-> (1 <= reviewCount state)%nat)
  /\ ((exists rows, In (Some rows) fetches /\ rows <> []) ->
      showsRating state = true).
Proof.
  intros F state.
  assert (C : consistent state).
  { apply fetches_consistent; [exact F|]. left. split; reflexivity. }
  split; [now apply consistent_shows|].
  intros [rows [I N]]. apply (consistent_shows C).
  apply in_split in I. destruct I as [before [after ->]].
  unfold state. rewrite fold_left_app. cbn [fold_left].
  apply fetches_keep_count.
  destruct rows as [|r rows]; [congruence|]. simpl. lia.
Qed.

Lemma fetched_rating_in_range_witness :
  [4; 5; 3]%Z <> []
  /\ Forall storedRating [4; 5; 3]%Z
  /\ reviewCount (fetchReviews (Some [4; 5; 3]%Z) initialRatings) = 3%nat
  /\ (1 <= averageRating (fetchReviews (Some [4; 5; 3]%Z) initialRatings)
       <= 5)%Q
  /\ showsRating (fetchReviews (Some [4; 5; 3]%Z) initialRatings) = true.
Proof.
  assert (N : [4; 5; 3]%Z <> []) by discriminate.
  assert (H : Forall storedRating [4; 5; 3]%Z)
    by (repeat constructor; unfold storedRating; lia).
  split; [exact N|]. split; [exact H|].
  exact (@fetched_rating_in_range [4; 5; 3]%Z initialRatings N H).
Defined.

Lemma rating_line_consistent_witness :
  Forall storedRows [Some [4; 5]%Z; None; Some []]
  /\ (showsRating
        (fold_left (fun st data => fetchReviews data st)
           [Some [4; 5]%Z; None; Some []] initialRatings) = true
      <-> (1 <= reviewCount
                 (fold_left (fun st data => fetchReviews data st)
                    [Some [4; 5]%Z; None; Some []] initialRatings))%nat)
  /\ ((exists rows,
         In (Some rows) [Some [4; 5]%Z; None; Some []] /\ rows <> []) ->
      showsRating
        (fold_left (fun st data => fetchReviews data st)
           [Some [4; 5]%Z; None; Some []] initialRatings) = true).
Proof.
  assert (F : Forall storedRows [Some [4; 5]%Z; None; Some []]).
  { repeat constructor; unfold storedRating; lia. }
  split; [exact F|].
  exact (@rating_line_consistent [Some [4; 5]%Z; None; Some []] F).
Defined.

End ShopCard.

(* ================================================================== *)
(** ** Validation by schema ([ReviewForm.tsx], [ShopForm.tsx]) *)
(* ================================================================== *)

Module Schema.

Import JsString.

(** An issue of a failed [parse]: with the message the schema gives for it,
    or one of the library's own for a bound without a message and for a
    number that is [NaN]. *)
Inductive Issue : Type :=
| Message (text : jsstring)
| TooSmall (bound : Z)
| TooBig (bound : Z)
| NotANumber.

(** [z.string().trim().min(least, tooShort).max(most, tooLong)]: the value
    is trimmed, then its length checked; the result is the trimmed value
    and the issues.  Without [min] the least length is 0, which no string
    misses. *)
Definition checkString (least most : nat) (tooShort tooLong : jsstring)
    (value : jsstring) : jsstring * list Issue :=
  let trimmed := trim value in
  (trimmed,
   (if List.length trimmed <? least then [Message tooShort] else [])
   ++ (if most <? List.length trimmed then [Message tooLong] else [])).

(** A string within the bounds and without white space at its ends. *)
Definition trimmedWithin (least most : nat) (text : jsstring) : Prop :=
  trim text = text /\ least <= List.length text <= most.

Lemma checkString_ok (least most : nat) (tooShort tooLong value : jsstring) :
  snd (checkString least most tooShort tooLong value) = [] <->
  least <= List.length (trim value) <= most.
Proof.
  unfold checkString. cbn [snd].
  destruct (Nat.ltb_spec (List.length (trim value)) least) as [L | L];
    destruct (Nat.ltb_spec most (List.length (trim value))) as [G | G];
    simpl; split; intros H; try discriminate; try reflexivity; lia.
Qed.

End Schema.

(* ================================================================== *)
(** ** The review form ([ReviewForm.tsx]) *)
(* ================================================================== *)

Module ReviewForm.

Import JsString Schema.

Local Open Scope Z_scope.

(** The value of [reviewSchema.parse({ rating, comment })]: the validated
    rating and comment, or the issues, those of the rating first.  The
    rating is the whole number the stars set, [0] before any click. *)
Definition reviewSchema (rating : Z) (comment : jsstring)
  : (Z * jsstring) + list Issue :=
  let ratingIssues :=
    (if rating <? 1 then [Message (str "Please select a rating")] else [])
    ++ (if 5 <? rating then [TooBig 5] else []) in
  let (trimmed, commentIssues) :=
    checkString 0 500 [] (str "Comment is too long") comment in
  match ratingIssues ++ commentIssues with
  | [] => inl (rating, trimmed)
  | issues => inr issues
  end.

(** What [handleSubmit] does with the form: the row it hands to [upsert]
    (beside the shop and the buyer), or the message of the toast
    [Validation error]. *)
Inductive Outcome : Type :=
| Upsert (rating : Z) (comment : option jsstring)
| ValidationError (first : Issue).

(** [validated.comment || null] *)
Definition orNull (text : jsstring) : option jsstring :=
  match text with
  | [] => None
  | _ :: _ => Some text
  end.

Definition handleSubmit (rating : Z) (comment : jsstring) : Outcome :=
  match reviewSchema rating comment with
  | inl (validRating, validComment) => Upsert validRating (orNull validComment)
  | inr issues =>
      match issues with
      | first :: _ => ValidationError first
      | [] => ValidationError NotANumber   (* a failed parse has an issue *)
      end
  end.

(** *** Facts *)

Lemma reviewSchema_cases (rating : Z) (comment : jsstring) :
  (rating < 1
   /\ handleSubmit rating comment
      = ValidationError (Message (str "Please select a rating")))
  \/ (5 < rating
      /\ handleSubmit rating comment = ValidationError (TooBig 5))
  \/ (1 <= rating <= 5
      /\ (500 < List.length (trim comment))%nat
      /\ handleSubmit rating comment
         = ValidationError (Message (str "Comment is too long")))
  \/ (1 <= rating <= 5
      /\ (List.length (trim comment) <= 500)%nat
      /\ handleSubmit rating comment = Upsert rating (orNull (trim comment))).
Proof.
  unfold handleSubmit, reviewSchema, checkString.
  destruct (Z.ltb_spec rating 1) as [L | L].
  - left. split; [exact L|]. reflexivity.
  - destruct (Z.ltb_spec 5 rating) as [G | G].
    + right. left. split; [exact G|]. reflexivity.
    + right. right.
      change (List.length (trim comment) <? 0)%nat with false.
      destruct (Nat.ltb_spec 500 (List.length (trim comment))) as [C | C].
      * left. split; [lia|]. split; [exact C|]. reflexivity.
      * right. split; [lia|]. split; [exact C|]. reflexivity.
Qed.

(** *** The properties of the review form *)

(** X15: a review reaches the store only with a rating from 1 to 5, which
    is what the store's check on the column asks, and with a comment that
    is either absent or the text typed without the white space at its ends,
    not empty and of at most 500 units; and every form with such a rating
    and comment is sent. *)
Theorem upsert_only_valid_reviews (rating : Z) (comment : jsstring) :
  (forall r c,
     handleSubmit rating comment = Upsert r c ->
     r = rating /\ ShopCard.storedRating r
     /\ match c with
        | None => trim comment = []
        | Some text =>
            text = trim comment /\ text <> [] /\ trim text = text
            /\ (List.length text <= 500)%nat
        end)
  /\ (1 <= rating <= 5 ->
      (List.length (trim comment) <= 500)%nat ->
      handleSubmit rating comment = Upsert rating (orNull (trim comment))).
Proof.
  split.
  - intros r c H.
    destruct (reviewSchema_cases rating comment)
      as [[_ E] | [[_ E] | [(_ & _ & E) | (R & C & E)]]];
      rewrite E in H; try discriminate.
    inversion H. subst r c. clear H.
    split; [reflexivity|]. split; [exact R|].
    destruct (trim comment) as [|u t] eqn:T; simpl; [reflexivity|].
    rewrite <- T. repeat split.
    + rewrite T. discriminate.
    + apply trim_idem.
    + exact C.
  - intros R C.
    destruct (reviewSchema_cases rating comment)
      as [[L _] | [[G _] | [(_ & L & _) | (_ & _ & E)]]];
      try lia. exact E.
Qed.

(** X16: the toast of a refused review names the rating first: a form
    without a star is told to select a rating whatever its comment, and a
    comment is called too long only beside a rating from 1 to 5. *)
Theorem refused_review_message (rating : Z) (comment : jsstring) :
  (rating < 1 ->
   handleSubmit rating comment
   = ValidationError (Message (str "Please select a rating")))
  /\ (handleSubmit rating comment
      = ValidationError (Message (str "Comment is too long")) ->
      1 <= rating <= 5 /\ (500 < List.length (trim comment))%nat).
Proof.
  destruct (reviewSchema_cases rating comment)
    as [[L E] | [[G E] | [(R & C & E) | (R & C & E)]]];
    rewrite E; split; intros H; try lia; try discriminate; auto.
Qed.

End ReviewForm.

(* ================================================================== *)
(** ** The shop form ([ShopForm.tsx]) *)
(* ================================================================== *)

Module ShopForm.

Import JsString Schema.

Local Open Scope R_scope.

(** A number of the form: what [parseFloat] made of the text of the field,
    [NaN] when it found no number. *)
Inductive FormNumber : Type :=
| NaN
| Num (x : R).

(** The state [formData]. *)
Record FormData : Type := {
  shop_name : jsstring;
  owner_name : jsstring;
  address : jsstring;
  phone : jsstring;
  latitude : FormNumber;
  longitude : FormNumber
}.

(** What [shopSchema.parse] returns, the object handed to the store. *)
Record ShopRow : Type := {
  row_shop_name : jsstring;
  row_owner_name : jsstring;
  row_address : jsstring;
  row_phone : jsstring;
  row_latitude : R;
  row_longitude : R
}.

(** The shop handed to the form for editing; its phone can be [null]. *)
Record ExistingShop : Type := {
  old_shop_name : jsstring;
  old_owner_name : jsstring;
  old_address : jsstring;
  old_phone : option jsstring;
  old_latitude : R;
  old_longitude : R
}.

(** [z.number().min(least).max(most)] *)
Definition checkNumber (least most : Z) (value : FormNumber) : list Issue :=
  match value with
  | NaN => [NotANumber]
  | Num x =>
      (if Rlt_dec x (IZR least) then [TooSmall least] else [])
      ++ (if Rlt_dec (IZR most) x then [TooBig most] else [])
  end.

(** The number of a form field, [0] where it has none (read only when the
    field has no issue). *)
Definition numberOf (value : FormNumber) : R :=
  match value with
  | NaN => 0
  | Num x => x
  end.

(** [shopSchema.parse(formData)]: the row, or the issues in the order of
    the fields of the schema. *)
Definition shopSchema (formData : FormData) : ShopRow + list Issue :=
  let (shopName, issues1) :=
    checkString 2 100 (str "Shop name must be at least 2 characters")
      (str "Shop name too long") (shop_name formData) in
  let (ownerName, issues2) :=
    checkString 2 100 (str "Owner name must be at least 2 characters")
      (str "Owner name too long") (owner_name formData) in
  let (addressText, issues3) :=
    checkString 5 500 (str "Please provide a complete address")
      (str "Address too long") (address formData) in
  let (phoneText, issues4) :=
    checkString 0 15 [] (str "Phone number too long") (phone formData) in
  let issues5 := checkNumber (-90) 90 (latitude formData) in
  let issues6 := checkNumber (-180) 180 (longitude formData) in
  match issues1 ++ issues2 ++ issues3 ++ issues4 ++ issues5 ++ issues6 with
  | [] =>
      inl {| row_shop_name := shopName;
             row_owner_name := ownerName;
             row_address := addressText;
             row_phone := phoneText;
             row_latitude := numberOf (latitude formData);
             row_longitude := numberOf (longitude formData) |}
  | issues => inr issues
  end.

(** What [handleSubmit] does with the form: the row it hands to [update] or
    to [insert], or the message of the toast [Validation error]. *)
Inductive Outcome : Type :=
| Save (row : ShopRow)
| ValidationError (first : Issue).

Definition handleSubmit (formData : FormData) : Outcome :=
  match shopSchema formData with
  | inl validated => Save validated
  | inr issues =>
      match issues with
      | first :: _ => ValidationError first
      | [] => ValidationError NotANumber   (* a failed parse has an issue *)
      end
  end.

(** [text || ""] and [x || 0] *)
Definition orEmpty (text : option jsstring) : jsstring :=
  match text with
  | Some t => t
  | None => []
  end.

Definition orZero (x : R) : R := if Req_dec_T x 0 then 0 else x.

(** The first state of [formData], from the shop to edit if there is one. *)
Definition initialForm (shop : option ExistingShop) : FormData :=
  match shop with
  | Some s =>
      {| shop_name := orEmpty (Some (old_shop_name s));
         owner_name := orEmpty (Some (old_owner_name s));
         address := orEmpty (Some (old_address s));
         phone := orEmpty (old_phone s);
         latitude := Num (orZero (old_latitude s));
         longitude := Num (orZero (old_longitude s)) |}
  | None =>
      {| shop_name := []; owner_name := []; address := []; phone := [];
         latitude := Num 0; longitude := Num 0 |}
  end.

(** The shop as the store gives it back when it keeps the row as saved. *)
Definition asStored (row : ShopRow) : ExistingShop :=
  {| old_shop_name := row_shop_name row;
     old_owner_name := row_owner_name row;
     old_address := row_address row;
     old_phone := Some (row_phone row);
     old_latitude := row_latitude row;
     old_longitude := row_longitude row |}.

(** A form that passes. *)
Definition sampleForm : FormData :=
  {| shop_name := str "  Green Grocer ";
     owner_name := str "Asha Rao";
     address := str "12 Market Road";
     phone := str "";
     latitude := Num 12;
     longitude := Num 77 |}.

Definition sampleRow : ShopRow :=
  {| row_shop_name := str "Green Grocer";
     row_owner_name := str "Asha Rao";
     row_address := str "12 Market Road";
     row_phone := str "";
     row_latitude := 12;
     row_longitude := 77 |}.

(** What a form has to satisfy to pass. *)
Definition passes (formData : FormData) : Prop :=
  (2 <= List.length (trim (shop_name formData)) <= 100)%nat
  /\ (2 <= List.length (trim (owner_name formData)) <= 100)%nat
  /\ (5 <= List.length (trim (address formData)) <= 500)%nat
  /\ (0 <= List.length (trim (phone formData)) <= 15)%nat
  /\ (exists x, latitude formData = Num x /\ -90 <= x <= 90)
  /\ (exists x, longitude formData = Num x /\ -180 <= x <= 180).

(** The issues of a form and the row of a form without issues. *)
Definition shopIssues (formData : FormData) : list Issue :=
  snd (checkString 2 100 (str "Shop name must be at least 2 characters")
         (str "Shop name too long") (shop_name formData))
  ++ snd (checkString 2 100 (str "Owner name must be at least 2 characters")
            (str "Owner name too long") (owner_name formData))
  ++ snd (checkString 5 500 (str "Please provide a complete address")
            (str "Address too long") (address formData))
  ++ snd (checkString 0 15 [] (str "Phone number too long")
            (phone formData))
  ++ checkNumber (-90) 90 (latitude formData)
  ++ checkNumber (-180) 180 (longitude formData).

Definition shopRowOf (formData : FormData) : ShopRow :=
  {| row_shop_name := trim (shop_name formData);
     row_owner_name := trim (owner_name formData);
     row_address := trim (address formData);
     row_phone := trim (phone formData);
     row_latitude := numberOf (latitude formData);
     row_longitude := numberOf (longitude formData) |}.

(** *** Facts *)

Lemma app_nil_both (A : Type) (l l' : list A) :
  l ++ l' = [] <-> l = [] /\ l' = [].
Proof.
  split; [apply app_eq_nil | intros [-> ->]; reflexivity].
Qed.

Lemma checkNumber_ok (least most : Z) (value : FormNumber) :
  checkNumber least most value = [] <->
  exists x, value = Num x /\ IZR least <= x <= IZR most.
Proof.
  destruct value as [|x]; simpl.
  - split; [discriminate | intros [x [H _]]; discriminate].
  - destruct (Rlt_dec x (IZR least)) as [L | L];
      destruct (Rlt_dec (IZR most) x) as [G | G]; simpl; split;
      try discriminate;
      try (intros [y [E B]]; inversion E; subst; lra);
      try reflexivity.
    intros _. exists x. split; [reflexivity | lra].
Qed.

Lemma shopSchema_unfold (formData : FormData) :
  shopSchema formData
  = match shopIssues formData with
    | [] => inl (shopRowOf formData)
    | issues => inr issues
    end.
Proof. reflexivity. Qed.

Lemma shopIssues_nil (formData : FormData) :
  shopIssues formData = [] <-> passes formData.
Proof.
  unfold shopIssues, passes.
  rewrite !app_nil_both, !checkString_ok, !checkNumber_ok. tauto.
Qed.

Lemma shopSchema_passes (formData : FormData) (row : ShopRow) :
  shopSchema formData = inl row <->
  passes formData /\ row = shopRowOf formData.
Proof.
  rewrite shopSchema_unfold, <- shopIssues_nil.
  destruct (shopIssues formData) as [|i l].
  - split.
    + intros H. inversion H. auto.
    + intros [_ ->]. reflexivity.
  - split; [discriminate | intros [H _]; discriminate].
Qed.

Lemma handleSubmit_save (formData : FormData) (row : ShopRow) :
  handleSubmit formData = Save row <->
  passes formData /\ row = shopRowOf formData.
Proof.
  rewrite <- shopSchema_passes. unfold handleSubmit.
  destruct (shopSchema formData) as [r | [|i l]].
  - split; intros H; inversion H; reflexivity.
  - split; discriminate.
  - split; discriminate.
Qed.

Lemma orZero_id (x : R) : orZero x = x.
Proof. unfold orZero. destruct (Req_dec_T x 0) as [-> | _]; reflexivity. Qed.

Lemma sampleForm_saved : handleSubmit sampleForm = Save sampleRow.
Proof.
  apply handleSubmit_save. split; [|reflexivity].
  unfold passes, sampleForm. cbn [shop_name owner_name address phone
                                   latitude longitude].
  repeat split; try (vm_compute; lia).
  - exists 12. split; [reflexivity | lra].
  - exists 77. split; [reflexivity | lra].
Qed.

(** *** The properties of the shop form *)

(** X17: a row the form saves holds the texts typed without the white space
    at their ends, the names of 2 to 100 units, the address of 5 to 500,
    the phone of at most 15, and a latitude from -90 to 90 and a longitude
    from -180 to 180. *)
Theorem saved_shop_is_valid (formData : FormData) (row : ShopRow) :
  handleSubmit formData = Save row ->
  row = shopRowOf formData
  /\ trimmedWithin 2 100 (row_shop_name row)
  /\ trimmedWithin 2 100 (row_owner_name row)
  /\ trimmedWithin 5 500 (row_address row)
  /\ trimmedWithin 0 15 (row_phone row)
  /\ -90 <= row_latitude row <= 90
  /\ -180 <= row_longitude row <= 180.
Proof.
  intros H. apply handleSubmit_save in H.
  destruct H as [(H1 & H2 & H3 & H4 & [x [Ex Bx]] & [y [Ey By]]) ->].
  unfold shopRowOf, trimmedWithin.
  cbn [row_shop_name row_owner_name row_address row_phone
       row_latitude row_longitude].
  rewrite !trim_idem, Ex, Ey. simpl numberOf.
  repeat split; try apply H1; try apply H2; try apply H3; try apply H4;
    try apply Bx; try apply By.
Qed.

(** X19: a saved shop opened for editing and submitted as it is passes and
    gives the same row again (the store keeping the row as it was saved). *)
Theorem resubmitting_saved_shop (formData : FormData) (row : ShopRow) :
  handleSubmit formData = Save row ->
  handleSubmit (initialForm (Some (asStored row))) = Save row.
Proof.
  intros H. apply handleSubmit_save in H.
  destruct H as [(H1 & H2 & H3 & H4 & [x [Ex Bx]] & [y [Ey By]]) ->].
  apply handleSubmit_save.
  unfold initialForm, asStored, shopRowOf, passes, orEmpty.
  cbn [shop_name owner_name address phone latitude longitude
       old_shop_name old_owner_name old_address old_phone
       old_latitude old_longitude
       row_shop_name row_owner_name row_address row_phone
       row_latitude row_longitude].
  rewrite !trim_idem, !orZero_id, Ex, Ey. simpl numberOf.
  split; [|reflexivity].
  repeat split; try apply H1; try apply H2; try apply H3; try apply H4.
  - exists x. split; [reflexivity | exact Bx].
  - exists y. split; [reflexivity | exact By].
Qed.

Lemma saved_shop_is_valid_witness :
  handleSubmit sampleForm = Save sampleRow
  /\ sampleRow = shopRowOf sampleForm
  /\ trimmedWithin 2 100 (row_shop_name sampleRow)
  /\ trimmedWithin 2 100 (row_owner_name sampleRow)
  /\ trimmedWithin 5 500 (row_address sampleRow)
  /\ trimmedWithin 0 15 (row_phone sampleRow)
  /\ -90 <= row_latitude sampleRow <= 90
  /\ -180 <= row_longitude sampleRow <= 180.
Proof.
  split; [exact sampleForm_saved|].
  exact (@saved_shop_is_valid sampleForm sampleRow sampleForm_saved).
Defined.

Lemma resubmitting_saved_shop_witness :
  handleSubmit sampleForm = Save sampleRow
  /\ handleSubmit (initialForm (Some (asStored sampleRow))) = Save sampleRow.
Proof.
  split; [exact sampleForm_saved|].
  exact (@resubmitting_saved_shop sampleForm sampleRow sampleForm_saved).
Defined.

End ShopForm.

(* ================================================================== *)
(** ** The upload of a product image ([ProductForm.tsx]) *)
(* ================================================================== *)

Module ProductForm.

Import JsString.

Local Open Scope N_scope.

Definition dot : codeUnit := 46.

(** [pieces.pop()] of an array that is not empty, as [split] returns. *)
Definition pop (pieces : list jsstring) : jsstring := last pieces [].

(** [file.name.split(".").pop()] *)
Definition fileExt (name : jsstring) : jsstring := pop (split dot name).

(** What [handleImageUpload] does with a file of [size] bytes called
    [name]: the toast [File too large], or the upload to [filePath], where
    [random] is the text of [Math.random()]. *)
Inductive UploadStep : Type :=
| FileTooLarge
| UploadTo (filePath : jsstring).

Definition handleImageUpload (random : jsstring) (size : N)
    (name : jsstring) : UploadStep :=
  if 5 * 1024 * 1024 <? size then FileTooLarge
  else
    let fileName := random ++ dot :: fileExt name in
    let filePath := str "products/" ++ fileName in
    UploadTo filePath.

(** *** Facts *)

Lemma split_pieces (sep : codeUnit) (s : jsstring) :
  ~ In sep (last (split sep s) [])
  /\ ((~ In sep s /\ split sep s = [s])
      \/ (exists stem, s = stem ++ sep :: last (split sep s) [])
         /\ (2 <= List.length (split sep s))%nat).
Proof.
  induction s as [|c r [N IH]].
  - simpl. split; [tauto|]. left. split; [tauto | reflexivity].
  - cbn [split]. destruct (N.eqb_spec c sep) as [-> | D].
    + destruct IH as [[Nr E] | [[stem E] L]].
      * rewrite E. cbn [last]. split; [exact Nr|].
        right. split; [now exists [] | simpl; lia].
      * destruct (split sep r) as [|p [|p' ps]] eqn:S;
          try (simpl in L; lia).
        split; [exact N|]. right. split; [|simpl; lia].
        exists (sep :: stem). cbn [app]. f_equal. exact E.
    + destruct IH as [[Nr E] | [[stem E] L]].
      * rewrite E. cbn [last]. split.
        -- simpl. intros [H | H]; [congruence | tauto].
        -- left. split; [|reflexivity].
           simpl. intros [H | H]; [congruence | tauto].
      * destruct (split sep r) as [|p [|p' ps]] eqn:S;
          try (simpl in L; lia).
        split; [exact N|]. right. split; [|simpl; lia].
        exists (c :: stem). cbn [app]. f_equal. exact E.
Qed.

Lemma last_separator_unique (sep : codeUnit) (pre t stem u : jsstring) :
  ~ In sep t -> ~ In sep u ->
  pre ++ sep :: t = stem ++ sep :: u -> t = u.
Proof.
  revert stem. induction pre as [|c pre IH]; intros [|d stem] Nt Nu E;
    simpl in E; inversion E; subst.
  - reflexivity.
  - exfalso. apply Nt. apply in_or_app. right. now left.
  - exfalso. apply Nu. apply in_or_app. right. now left.
  - eapply IH; eassumption.
Qed.

Lemma fileExt_after_dot (pre ext : jsstring) :
  ~ In dot ext -> fileExt (pre ++ dot :: ext) = ext.
Proof.
  intros N. unfold fileExt, pop.
  destruct (split_pieces dot (pre ++ dot :: ext))
    as [Nl [[Ns _] | [[stem E] _]]].
  - exfalso. apply Ns. apply in_or_app. right. now left.
  - symmetry. exact (@last_separator_unique dot pre ext stem _ N Nl E).
Qed.

(** *** The properties of the upload *)

(** X20: a file of at most 5 MiB is uploaded to [products/], under the
    random text, a dot and the extension of the file: the text after the
    last dot of its name, the whole name when it has no dot.  The extension
    holds no dot, and read off the path again it is the same.  A larger
    file is not uploaded. *)
Theorem upload_keeps_extension (random : jsstring) (size : N)
    (name : jsstring) :
  (size <= 5242880 ->
   exists ext,
     handleImageUpload random size name
     = UploadTo (str "products/" ++ random ++ dot :: ext)
     /\ ~ In dot ext
     /\ ((~ In dot name /\ ext = name)
         \/ exists stem, name = stem ++ dot :: ext)
     /\ fileExt (str "products/" ++ random ++ dot :: ext) = ext)
  /\ (5242880 < size -> handleImageUpload random size name = FileTooLarge).
Proof.
  unfold handleImageUpload. change (5 * 1024 * 1024) with 5242880.
  split; intros H.
  - destruct (N.ltb_spec 5242880 size) as [G | _]; [lia|].
    exists (fileExt name). split; [reflexivity|].
    unfold fileExt at 1 2 3, pop.
    destruct (split_pieces dot name) as [Nl [[Ns E] | [[stem E] _]]].
    + split; [exact Nl|]. split.
      * left. split; [exact Ns|]. now rewrite E.
      * rewrite app_assoc. apply fileExt_after_dot. exact Nl.
    + split; [exact Nl|]. split.
      * right. now exists stem.
      * rewrite app_assoc. apply fileExt_after_dot. exact Nl.
  - destruct (N.ltb_spec 5242880 size) as [_ | L]; [reflexivity | lia].
Qed.

End ProductForm.
